(** * text-autocomplete: the editor buffer, the suggestion matcher and the
      idle-time completion request, embedded from [text_autocomplete.py]
      and [ai_completer.py].

    Python values are modelled as follows.
    - [int] is [Z]; [len] returns a [Z].  The counter
      [suggestion_match_pos], which the program only ever resets to 0 or
      increments, is a [nat].
    - [str] is [string]; a character is a one-character [str].
    - [list] is [list]; item access, item assignment and [del] raise
      [IndexError] out of range, slices and [list.insert] clamp.
    - [time.time()] is a rational number of seconds ([Q]): float rounding is
      idealised as exact arithmetic.
    - an exception that leaves a method is the [Raise] outcome of [res]. *)

From Stdlib Require Import ZArith QArith Lia Lqa Ascii String.
From stdpp Require Import base list strings gmap.

Local Open Scope Z_scope.

(* ===================================================================== *)
(** ** Python primitives *)
(* ===================================================================== *)

Module Py.

Inductive exn : Type :=
| IndexError.

Inductive res (A : Type) : Type :=
| Ok (a : A)
| Raise (e : exn).
Arguments Ok {A} a.
Arguments Raise {A} e.

Definition bind {A B : Type} (m : res A) (k : A -> res B) : res B :=
  match m with
  | Ok a => k a
  | Raise e => Raise e
  end.

Definition len {A : Type} (l : list A) : Z := Z.of_nat (length l).
Definition slen (s : string) : Z := Z.of_nat (String.length s).

(** Truth value of a [str]: the empty string is falsy. *)
Definition truthy (s : string) : bool :=
  match s with
  | EmptyString => false
  | String _ _ => true
  end.

(** Bound of a slice (and position of [list.insert]) over a sequence of
    length [n]: a negative bound counts from the end, and the result is
    clamped to [0..n]. *)
Definition adjust (n : nat) (i : Z) : nat :=
  if i <? 0 then Z.to_nat (Z.max 0 (i + Z.of_nat n))
  else Z.to_nat (Z.min i (Z.of_nat n)).

(** Position of an item access [s[i]]: a negative index counts from the end,
    and anything outside the sequence is an [IndexError]. *)
Definition item (n : nat) (i : Z) : res nat :=
  if i <? 0 then
    if 0 <=? i + Z.of_nat n then Ok (Z.to_nat (i + Z.of_nat n))
    else Raise IndexError
  else
    if i <? Z.of_nat n then Ok (Z.to_nat i) else Raise IndexError.

Fixpoint str_take (n : nat) (s : string) : string :=
  match n, s with
  | O, _ => EmptyString
  | S _, EmptyString => EmptyString
  | S n', String c s' => String c (str_take n' s')
  end.

Fixpoint str_drop (n : nat) (s : string) : string :=
  match n, s with
  | O, _ => s
  | S _, EmptyString => EmptyString
  | S n', String _ s' => str_drop n' s'
  end.

(** [s[:j]] *)
Definition slice_to (s : string) (j : Z) : string :=
  str_take (adjust (String.length s) j) s.

(** [s[i:]] *)
Definition slice_from (s : string) (i : Z) : string :=
  str_drop (adjust (String.length s) i) s.

(** [s[i:j]] *)
Definition slice (s : string) (i j : Z) : string :=
  let a := adjust (String.length s) i in
  let b := adjust (String.length s) j in
  str_take (b - a)%nat (str_drop a s).

(** [s[i]] *)
Definition str_item (s : string) (i : Z) : res ascii :=
  bind (item (String.length s) i) (fun k =>
    match String.get k s with
    | Some c => Ok c
    | None => Raise IndexError
    end).

(** [l[i]] *)
Definition getitem {A : Type} (l : list A) (i : Z) : res A :=
  bind (item (length l) i) (fun k =>
    match l !! k with
    | Some x => Ok x
    | None => Raise IndexError
    end).

(** [l[i] = v] *)
Definition setitem {A : Type} (l : list A) (i : Z) (v : A) : res (list A) :=
  bind (item (length l) i) (fun k => Ok (<[k:=v]> l)).

(** [del l[i]] *)
Definition delitem {A : Type} (l : list A) (i : Z) : res (list A) :=
  bind (item (length l) i) (fun k => Ok (delete k l)).

(** [l.insert(i, v)] *)
Definition insert_at {A : Type} (l : list A) (i : Z) (v : A) : list A :=
  let k := adjust (length l) i in
  take k l ++ v :: drop k l.

(** [sep.join(l)] *)
Fixpoint join (sep : string) (l : list string) : string :=
  match l with
  | [] => EmptyString
  | [s] => s
  | s :: rest => s +:+ sep +:+ join sep rest
  end.

(** [s.split(c)] for a one-character separator [c]: never the empty list. *)
Fixpoint split (c : ascii) (s : string) : list string :=
  match s with
  | EmptyString => [EmptyString]
  | String a s' =>
      if Ascii.eqb a c then EmptyString :: split c s'
      else
        match split c s' with
        | [] => [String a EmptyString]
        | w :: ws => String a w :: ws
        end
  end.

(** [str.isspace] on one character of the ASCII range. *)
Definition is_space (a : ascii) : bool :=
  let n := nat_of_ascii a in
  ((9 <=? n)%nat && (n <=? 13)%nat) || ((28 <=? n)%nat && (n <=? 32)%nat).

Fixpoint lstrip (s : string) : string :=
  match s with
  | EmptyString => EmptyString
  | String a s' => if is_space a then lstrip s' else s
  end.

(** [s.strip()] *)
Definition strip (s : string) : string :=
  String.rev (lstrip (String.rev (lstrip s))).

(** [s.startswith(p)] and [s.endswith(p)] *)
Definition startswith (s p : string) : bool := String.prefix p s.
Definition endswith (s p : string) : bool :=
  String.prefix (String.rev p) (String.rev s).

End Py.

Import Py.

#[global] Instance res_bind : MBind res := fun A B k m => Py.bind m k.
#[global] Instance res_ret : MRet res := @Py.Ok.

(** The line separator ['\n']. *)
Definition NL : ascii := ascii_of_nat 10.
Definition NLs : string := String NL EmptyString.

(* ===================================================================== *)
(** ** Clock arithmetic *)
(* ===================================================================== *)

(** [a < b] on clock values. *)
Definition Qlt_bool (a b : Q) : bool := negb (Qle_bool b a).

(* ===================================================================== *)
(** ** [AICompleter] and [TextEditor] objects *)
(* ===================================================================== *)

Record AICompleter : Type := mkCompleter {
  client : bool;              (* [self.client is not None] *)
  last_request_time : Q
}.

Record TextEditor : Type := mkEditor {
  filename : option string;
  pause_delay_ms : Z;         (* [self.config.pause_delay_ms] *)
  ai_completer : AICompleter;
  lines : list string;
  cursor_y : Z;
  cursor_x : Z;
  suggestion : string;
  suggestion_match_pos : nat;
  last_input_time : Q;
  ai_enabled : bool;
  requesting_completion : bool;
  modified : bool;
  status_message : string;
  status_message_time : Q
}.

Definition set_filename (v : option string) (e : TextEditor) : TextEditor :=
  mkEditor v (pause_delay_ms e) (ai_completer e) (lines e) (cursor_y e)
    (cursor_x e) (suggestion e) (suggestion_match_pos e) (last_input_time e)
    (ai_enabled e) (requesting_completion e) (modified e) (status_message e)
    (status_message_time e).

Definition set_ai_completer (v : AICompleter) (e : TextEditor) : TextEditor :=
  mkEditor (filename e) (pause_delay_ms e) v (lines e) (cursor_y e)
    (cursor_x e) (suggestion e) (suggestion_match_pos e) (last_input_time e)
    (ai_enabled e) (requesting_completion e) (modified e) (status_message e)
    (status_message_time e).

Definition set_lines (v : list string) (e : TextEditor) : TextEditor :=
  mkEditor (filename e) (pause_delay_ms e) (ai_completer e) v (cursor_y e)
    (cursor_x e) (suggestion e) (suggestion_match_pos e) (last_input_time e)
    (ai_enabled e) (requesting_completion e) (modified e) (status_message e)
    (status_message_time e).

Definition set_cursor_y (v : Z) (e : TextEditor) : TextEditor :=
  mkEditor (filename e) (pause_delay_ms e) (ai_completer e) (lines e) v
    (cursor_x e) (suggestion e) (suggestion_match_pos e) (last_input_time e)
    (ai_enabled e) (requesting_completion e) (modified e) (status_message e)
    (status_message_time e).

Definition set_cursor_x (v : Z) (e : TextEditor) : TextEditor :=
  mkEditor (filename e) (pause_delay_ms e) (ai_completer e) (lines e)
    (cursor_y e) v (suggestion e) (suggestion_match_pos e) (last_input_time e)
    (ai_enabled e) (requesting_completion e) (modified e) (status_message e)
    (status_message_time e).

Definition set_suggestion (v : string) (e : TextEditor) : TextEditor :=
  mkEditor (filename e) (pause_delay_ms e) (ai_completer e) (lines e)
    (cursor_y e) (cursor_x e) v (suggestion_match_pos e) (last_input_time e)
    (ai_enabled e) (requesting_completion e) (modified e) (status_message e)
    (status_message_time e).

Definition set_suggestion_match_pos (v : nat) (e : TextEditor) : TextEditor :=
  mkEditor (filename e) (pause_delay_ms e) (ai_completer e) (lines e)
    (cursor_y e) (cursor_x e) (suggestion e) v (last_input_time e)
    (ai_enabled e) (requesting_completion e) (modified e) (status_message e)
    (status_message_time e).

Definition set_last_input_time (v : Q) (e : TextEditor) : TextEditor :=
  mkEditor (filename e) (pause_delay_ms e) (ai_completer e) (lines e)
    (cursor_y e) (cursor_x e) (suggestion e) (suggestion_match_pos e) v
    (ai_enabled e) (requesting_completion e) (modified e) (status_message e)
    (status_message_time e).

Definition set_ai_enabled (v : bool) (e : TextEditor) : TextEditor :=
  mkEditor (filename e) (pause_delay_ms e) (ai_completer e) (lines e)
    (cursor_y e) (cursor_x e) (suggestion e) (suggestion_match_pos e)
    (last_input_time e) v (requesting_completion e) (modified e)
    (status_message e) (status_message_time e).

Definition set_requesting_completion (v : bool) (e : TextEditor) : TextEditor :=
  mkEditor (filename e) (pause_delay_ms e) (ai_completer e) (lines e)
    (cursor_y e) (cursor_x e) (suggestion e) (suggestion_match_pos e)
    (last_input_time e) (ai_enabled e) v (modified e) (status_message e)
    (status_message_time e).

Definition set_modified (v : bool) (e : TextEditor) : TextEditor :=
  mkEditor (filename e) (pause_delay_ms e) (ai_completer e) (lines e)
    (cursor_y e) (cursor_x e) (suggestion e) (suggestion_match_pos e)
    (last_input_time e) (ai_enabled e) (requesting_completion e) v
    (status_message e) (status_message_time e).

(** [set_status(message)], the clock reading being [now]. *)
Definition set_status (now : Q) (message : string) (e : TextEditor) : TextEditor :=
  mkEditor (filename e) (pause_delay_ms e) (ai_completer e) (lines e)
    (cursor_y e) (cursor_x e) (suggestion e) (suggestion_match_pos e)
    (last_input_time e) (ai_enabled e) (requesting_completion e) (modified e)
    message now.

(** The two assignments that clear the suggestion: [suggestion] to the
    empty string and [suggestion_match_pos] to 0. *)
Definition clear_suggestion (e : TextEditor) : TextEditor :=
  set_suggestion_match_pos 0%nat (set_suggestion EmptyString e).

(* ===================================================================== *)
(** ** Buffer operations *)
(* ===================================================================== *)

(** [get_current_line] *)
Definition get_current_line (e : TextEditor) : res string :=
  if cursor_y e <? len (lines e) then getitem (lines e) (cursor_y e)
  else Ok EmptyString.

(** [check_suggestion_match(char)] *)
Definition check_suggestion_match (char : string) (e : TextEditor) : res TextEditor :=
  if negb (truthy (suggestion e)) then Ok e
  else if Z.of_nat (suggestion_match_pos e) <? slen (suggestion e) then
    c ← str_item (suggestion e) (Z.of_nat (suggestion_match_pos e));
    if String.eqb (String c EmptyString) char then
      Ok (set_suggestion_match_pos (suggestion_match_pos e + 1)%nat e)
    else Ok (clear_suggestion e)
  else Ok (clear_suggestion e).

(** [insert_char(char)], the clock reading being [now]. *)
Definition insert_char (now : Q) (char : string) (e : TextEditor) : res TextEditor :=
  current_line ← get_current_line e;
  let new_line := slice_to current_line (cursor_x e) +:+ char
                  +:+ slice_from current_line (cursor_x e) in
  ls ← setitem (lines e) (cursor_y e) new_line;
  let e := set_lines ls e in
  let e := set_cursor_x (cursor_x e + 1) e in
  let e := set_modified true e in
  e ← check_suggestion_match char e;
  Ok (set_last_input_time now e).

(** [delete_char()], the clock reading being [now]. *)
Definition delete_char (now : Q) (e : TextEditor) : res TextEditor :=
  if 0 <? cursor_x e then
    current_line ← get_current_line e;
    let new_line := slice_to current_line (cursor_x e - 1)
                    +:+ slice_from current_line (cursor_x e) in
    ls ← setitem (lines e) (cursor_y e) new_line;
    let e := set_lines ls e in
    let e := set_cursor_x (cursor_x e - 1) e in
    let e := set_modified true e in
    let e := clear_suggestion e in
    Ok (set_last_input_time now e)
  else if 0 <? cursor_y e then
    previous_line ← getitem (lines e) (cursor_y e - 1);
    current_line ← get_current_line e;
    ls ← setitem (lines e) (cursor_y e - 1) (previous_line +:+ current_line);
    ls ← delitem ls (cursor_y e);
    let e := set_lines ls e in
    let e := set_cursor_y (cursor_y e - 1) e in
    let e := set_cursor_x (slen previous_line) e in
    let e := set_modified true e in
    let e := clear_suggestion e in
    Ok (set_last_input_time now e)
  else Ok e.

(** [insert_newline()], the clock reading being [now]. *)
Definition insert_newline (now : Q) (e : TextEditor) : res TextEditor :=
  current_line ← get_current_line e;
  let before := slice_to current_line (cursor_x e) in
  let after := slice_from current_line (cursor_x e) in
  ls ← setitem (lines e) (cursor_y e) before;
  let ls := insert_at ls (cursor_y e + 1) after in
  let e := set_lines ls e in
  let e := set_cursor_y (cursor_y e + 1) e in
  let e := set_cursor_x 0 e in
  let e := set_modified true e in
  let e := clear_suggestion e in
  Ok (set_last_input_time now e).

(** [move_cursor(dy, dx)] *)
Definition move_cursor (dy dx : Z) (e : TextEditor) : res TextEditor :=
  let e := if negb (dy =? 0) || (dx <? 0) then clear_suggestion e else e in
  let new_y := Z.max 0 (Z.min (len (lines e) - 1) (cursor_y e + dy)) in
  e ← (if negb (new_y =? cursor_y e) then
          let e := set_cursor_y new_y e in
          line ← get_current_line e;
          Ok (set_cursor_x (Z.min (cursor_x e) (slen line)) e)
        else Ok e);
  if negb (dx =? 0) then
    line ← get_current_line e;
    Ok (set_cursor_x (Z.max 0 (Z.min (slen line) (cursor_x e + dx))) e)
  else Ok e.

(** [accept_suggestion()] *)
Definition accept_suggestion (e : TextEditor) : res TextEditor :=
  if negb (truthy (suggestion e)) then Ok e
  else
    let remaining :=
      slice_from (suggestion e) (Z.of_nat (suggestion_match_pos e)) in
    if negb (truthy remaining) then Ok (set_suggestion EmptyString e)
    else
      current_line ← get_current_line e;
      let new_line := slice_to current_line (cursor_x e) +:+ remaining
                      +:+ slice_from current_line (cursor_x e) in
      ls ← setitem (lines e) (cursor_y e) new_line;
      let e := set_lines ls e in
      let e := set_cursor_x (cursor_x e + slen remaining) e in
      let e := set_modified true e in
      Ok (clear_suggestion e).

(** [range(a, b)] *)
Definition py_range (a b : Z) : list Z :=
  map (fun k => a + Z.of_nat k) (seq 0 (Z.to_nat (b - a))).

(** [get_context_before_cursor(max_chars)] *)
Definition get_context_before_cursor (max_chars : Z) (e : TextEditor) : res string :=
  previous ← mapM (getitem (lines e))
               (py_range (Z.max 0 (cursor_y e - 10)) (cursor_y e));
  current_line ← get_current_line e;
  let context_lines := previous ++ [slice_to current_line (cursor_x e)] in
  let context := join NLs context_lines in
  if max_chars <? slen context then Ok (slice_from context (- max_chars))
  else Ok context.

(* ===================================================================== *)
(** ** The environment of one call: clock, file system, provider *)
(* ===================================================================== *)

(** Outcome of a file operation: [IOError] carries the message of the
    exception. *)
Inductive io (A : Type) : Type :=
| Done (a : A)
| IOError (msg : string).
Arguments Done {A} a.
Arguments IOError {A} msg.

(** What the outside world answers during one call.
    - [clock]: the value of [time.time()];
    - [read_result path]: outcome of [open(path, 'r')] followed by [read()];
    - [write_result path data]: outcome of [open(path, 'w')] followed by
      [write(data)];
    - [provider prompt]: [response.choices[0].message.content] of the chat
      completion for [prompt], [None] when the call raises, or returns no
      choice or no content. *)
Record Env : Type := mkEnv {
  clock : Q;
  read_result : string -> io string;
  write_result : string -> string -> io unit;
  provider : string -> option string
}.

(** What a call does to the outside world. *)
Inductive effect : Type :=
| Wrote (path data : string)
| Requested (prompt : string).

(* ===================================================================== *)
(** ** Persistence *)
(* ===================================================================== *)

(** The [lines] a loaded [content] becomes (the body of the [with] block of
    [load_file]). *)
Definition load_content (content : string) : list string :=
  if truthy content then split NL content else [EmptyString].

(** The text [save_file] writes. *)
Definition serialize (ls : list string) : string := join NLs ls.

(** [load_file(filename)] *)
Definition load_file (env : Env) (name : string) (e : TextEditor) : TextEditor :=
  match read_result env name with
  | Done content =>
      let e := set_lines (load_content content) e in
      let e := set_filename (Some name) e in
      let e := set_modified false e in
      set_status (clock env) ("Loaded " +:+ name) e
  | IOError msg =>
      set_status (clock env) ("Error loading file: " +:+ msg) e
  end.

(** Truth value of an [Optional[str]]. *)
Definition truthy_opt (o : option string) : bool :=
  match o with
  | Some s => truthy s
  | None => false
  end.

(** [save_file(filename)] *)
Definition save_file (env : Env) (name : option string) (e : TextEditor)
  : TextEditor * list effect :=
  let e := if truthy_opt name then set_filename name e else e in
  match filename e with
  | Some path =>
      if truthy path then
        match write_result env path (serialize (lines e)) with
        | Done _ =>
            let e := set_modified false e in
            (set_status (clock env) ("Saved to " +:+ path) e,
             [Wrote path (serialize (lines e))])
        | IOError msg =>
            (set_status (clock env) ("Error saving file: " +:+ msg) e, [])
        end
      else (set_status (clock env) "No filename specified" e, [])
  | None => (set_status (clock env) "No filename specified" e, [])
  end.

(* ===================================================================== *)
(** ** Completion provider *)
(* ===================================================================== *)

Definition min_request_interval : Q := 1 # 2.

Definition DQUOTE : string := String (ascii_of_nat 34) EmptyString.

(** [AICompleter.is_available()] *)
Definition is_available (c : AICompleter) : bool := client c.

(** [AICompleter.get_completion(text)] *)
Definition get_completion (env : Env) (text : string) (c : AICompleter)
  : option string * AICompleter * list effect :=
  if negb (client c) || negb (truthy (strip text)) then (None, c, [])
  else
    let current_time := clock env in
    if Qlt_bool (current_time - last_request_time c) min_request_interval
    then (None, c, [])
    else
      let c := mkCompleter (client c) current_time in
      match provider env text with
      | Some content =>
          if truthy content then
            let completion := strip content in
            let completion :=
              if startswith completion DQUOTE && endswith completion DQUOTE
              then slice completion 1 (-1) else completion in
            (Some completion, c, [Requested text])
          else (None, c, [Requested text])
      | None => (None, c, [Requested text])
      end.

(** [request_ai_completion()] *)
Definition request_ai_completion (env : Env) (e : TextEditor)
  : res (TextEditor * list effect) :=
  if negb (ai_enabled e) || negb (is_available (ai_completer e)) then Ok (e, [])
  else if requesting_completion e then Ok (e, [])
  else
    context ← get_context_before_cursor 500 e;
    if negb (truthy (strip context)) then Ok (e, [])
    else
      let e := set_requesting_completion true e in
      let '(completion, c, out) := get_completion env context (ai_completer e) in
      let e := set_ai_completer c e in
      let e := set_requesting_completion false e in
      if truthy_opt completion then
        let e := set_suggestion (default EmptyString completion) e in
        Ok (set_suggestion_match_pos 0%nat e, out)
      else Ok (e, out).

(* ===================================================================== *)
(** ** Input dispatch *)
(* ===================================================================== *)

(** Key codes of the curses library. *)
Definition KEY_DOWN : Z := 258.
Definition KEY_UP : Z := 259.
Definition KEY_LEFT : Z := 260.
Definition KEY_RIGHT : Z := 261.
Definition KEY_BACKSPACE : Z := 263.
Definition KEY_ENTER : Z := 343.

(** [chr(key)] *)
Definition chr (key : Z) : string :=
  String (ascii_of_N (Z.to_N key)) EmptyString.

(** [pause_delay_ms / 1000.0] *)
Definition delay_seconds (e : TextEditor) : Q :=
  inject_Z (pause_delay_ms e) / inject_Z 1000.

(** The branch of [handle_input] taken when [getch()] returns [-1]. *)
Definition idle (env : Env) (e : TextEditor) : res (TextEditor * list effect) :=
  if ai_enabled e && negb (truthy (suggestion e))
       && negb (requesting_completion e) then
    let current_time := clock env in
    if Qlt_bool (delay_seconds e) (current_time - last_input_time e) then
      if Qlt_bool 0 (last_input_time e) then request_ai_completion env e
      else Ok (e, [])
    else Ok (e, [])
  else Ok (e, []).

Definition quiet {A : Type} (r : res A) : res (bool * A * list effect) :=
  a ← r; Ok (true, a, []).

(** [handle_input()], [key] being the value of [getch()].  The boolean is the
    returned flag: [false] leaves the main loop. *)
Definition handle_input (env : Env) (key : Z) (e : TextEditor)
  : res (bool * TextEditor * list effect) :=
  if key =? -1 then
    r ← idle env e; Ok (true, r.1, r.2)
  else if key =? 24 then
    if modified e then
      Ok (true, set_status (clock env)
                  "Save changes? (^S to save, ^X again to exit)" e, [])
    else Ok (false, e, [])
  else if key =? 19 then
    let r := save_file env None e in Ok (true, r.1, r.2)
  else if key =? 15 then
    Ok (true, set_status (clock env)
                "Open: (enter filename then press Enter)" e, [])
  else if key =? 7 then
    let e := set_ai_enabled (negb (ai_enabled e)) e in
    let status := if ai_enabled e then "enabled" else "disabled" in
    let e := set_status (clock env) ("AI autocomplete " +:+ status) e in
    Ok (true, if negb (ai_enabled e) then set_suggestion EmptyString e else e, [])
  else if (key =? 9) || (key =? KEY_RIGHT) then
    if truthy (suggestion e) then quiet (accept_suggestion e)
    else if key =? KEY_RIGHT then quiet (move_cursor 0 1 e)
    else Ok (true, e, [])
  else if key =? KEY_UP then quiet (move_cursor (-1) 0 e)
  else if key =? KEY_DOWN then quiet (move_cursor 1 0 e)
  else if key =? KEY_LEFT then quiet (move_cursor 0 (-1) e)
  else if (key =? KEY_BACKSPACE) || (key =? 127) || (key =? 8) then
    quiet (delete_char (clock env) e)
  else if (key =? KEY_ENTER) || (key =? 10) || (key =? 13) then
    quiet (insert_newline (clock env) e)
  else if (32 <=? key) && (key <=? 126) then
    quiet (insert_char (clock env) (chr key) e)
  else Ok (true, e, []).

(** The condition under which the idle branch reaches its call of
    [request_ai_completion]: the three nested tests of [handle_input]. *)
Definition idle_requests (env : Env) (e : TextEditor) : bool :=
  ai_enabled e && negb (truthy (suggestion e))
  && negb (requesting_completion e)
  && Qlt_bool (delay_seconds e) (clock env - last_input_time e)
  && Qlt_bool 0 (last_input_time e).

(** The main loop of [run], fed with the successive environments and keys;
    drawing and sleeping are left out. *)
Fixpoint run_inputs (inputs : list (Env * Z)) (e : TextEditor)
  : res (TextEditor * list effect) :=
  match inputs with
  | [] => Ok (e, [])
  | (env, key) :: rest =>
      '(continue, e1, out1) ← handle_input env key e;
      if continue : bool then
        '(e2, out2) ← run_inputs rest e1;
        Ok (e2, out1 ++ out2)
      else Ok (e1, out1)
  end.

(* ===================================================================== *)
(** ** Views used by the properties *)
(* ===================================================================== *)

(** The suggestion state machine read off the two fields: the program tests
    emptiness with [if not self.suggestion]. *)
Inductive SuggestionState : Type :=
| Empty
| Active (text : string) (match_pos : nat).

Definition suggestion_state (e : TextEditor) : SuggestionState :=
  if truthy (suggestion e) then Active (suggestion e) (suggestion_match_pos e)
  else Empty.

(** The cursor invariant: [0 <= row < len(lines)] and
    [0 <= col <= len(lines[row])]. *)
Definition cursor_inv (e : TextEditor) : Prop :=
  0 <= cursor_y e < len (lines e) /\
  exists line, lines e !! Z.to_nat (cursor_y e) = Some line /\
               0 <= cursor_x e <= slen line.

(** The four buffer operations. [InsertChar] carries the character typed. *)
Inductive op : Type :=
| InsertChar (c : ascii)
| DeleteChar
| InsertNewline
| MoveCursor (dy dx : Z).

Definition apply_op (now : Q) (o : op) (e : TextEditor) : res TextEditor :=
  match o with
  | InsertChar c => insert_char now (String c EmptyString) e
  | DeleteChar => delete_char now e
  | InsertNewline => insert_newline now e
  | MoveCursor dy dx => move_cursor dy dx e
  end.

(** A sequence of operations, each with the clock reading at which it runs. *)
Fixpoint run_ops (ops : list (Q * op)) (e : TextEditor) : res TextEditor :=
  match ops with
  | [] => Ok e
  | (now, o) :: rest => e' ← apply_op now o e; run_ops rest e'
  end.

(** [c in s] for a character [c]. *)
Fixpoint contains (c : ascii) (s : string) : bool :=
  match s with
  | EmptyString => false
  | String a s' => Ascii.eqb a c || contains c s'
  end.

(** The file [save_file(name)] writes to: the argument when it is given,
    the editor's [filename] otherwise. *)
Definition save_path (name : option string) (e : TextEditor) : option string :=
  if truthy_opt name then name else filename e.

(** A freshly constructed editor ([__init__] without a file to load), with
    the provider configured or not. *)
Definition new_editor (configured : bool) (delay_ms : Z) : TextEditor :=
  mkEditor None delay_ms (mkCompleter configured 0%Q) [EmptyString] 0 0
    EmptyString 0%nat 0%Q true false false EmptyString 0%Q.

(** An environment at clock [now] whose provider always fails, and whose file
    system refuses every operation. *)
Definition failing_env (now : Q) : Env :=
  mkEnv now (fun _ => IOError "denied") (fun _ _ => IOError "denied")
    (fun _ => None).

(** An environment at clock [now] whose provider answers [answer]. *)
Definition answering_env (now : Q) (answer : string) : Env :=
  mkEnv now (fun _ => IOError "denied") (fun _ _ => IOError "denied")
    (fun _ => Some answer).

(** An environment at clock [now] whose file system accepts every write. *)
Definition writable_env (now : Q) : Env :=
  mkEnv now (fun _ => IOError "denied") (fun _ _ => Done tt) (fun _ => None).

(* ===================================================================== *)
(** ** Further views and scenarios *)
(* ===================================================================== *)

(** No suggestion is pending while the cursor is at the very start of the
    buffer. *)
Definition origin_clear (e : TextEditor) : Prop :=
  cursor_y e = 0 -> cursor_x e = 0 -> suggestion e = EmptyString.

(** Typing the characters of [s] one after the other: one [insert_char]
    call per character, as [handle_input] does for printable keys. *)
Fixpoint type_string (now : Q) (s : string) (e : TextEditor) : res TextEditor :=
  match s with
  | EmptyString => Ok e
  | String c s' =>
      e' ← insert_char now (String c EmptyString) e;
      type_string now s' e'
  end.

(* ===================================================================== *)
(** ** Drawing the text area *)
(* ===================================================================== *)

(** The display state of [TextEditor] that [draw] reads and updates. *)
Record Display : Type := mkDisplay {
  offset_y : Z;
  height : Z;
  width : Z;
  text_height : Z
}.

(** [stdscr.addstr(y, x, text)]; [ghost] marks the call that draws the
    suggestion, with the dim cyan attribute. *)
Inductive draw_call : Type :=
| Addstr (y x : Z) (text : string) (ghost : bool).

(** The update of [offset_y] at the start of [draw]. *)
Definition scroll (d : Display) (e : TextEditor) : Display :=
  if cursor_y e <? offset_y d then
    mkDisplay (cursor_y e) (height d) (width d) (text_height d)
  else if offset_y d + text_height d <=? cursor_y e then
    mkDisplay (cursor_y e - text_height d + 1) (height d) (width d)
      (text_height d)
  else d.

(** One turn of the loop of [draw] over the rows of the text area: the
    [addstr] calls for screen row [i]. *)
Definition draw_row (d : Display) (e : TextEditor) (i : Z)
  : res (list draw_call) :=
  let line_idx := i + offset_y d in
  if line_idx <? len (lines e) then
    line ← getitem (lines e) line_idx;
    let main :=
      if slen line <=? width d - 1 then Addstr i 0 line false
      else Addstr i 0 (slice_to line (width d - 1)) false in
    if (line_idx =? cursor_y e) && truthy (suggestion e) then
      let ghost_x := cursor_x e in
      if ghost_x <? width d - 1 then
        let remaining :=
          slice_from (suggestion e) (Z.of_nat (suggestion_match_pos e)) in
        let max_len := Z.min (slen remaining) (width d - 1 - ghost_x) in
        if 0 <? max_len then
          Ok [main; Addstr i ghost_x (slice_to remaining max_len) true]
        else Ok [main]
      else Ok [main]
    else Ok [main]
  else Ok [].

(** The first part of [draw]: the scroll update and the text lines with the
    ghost text.  The status bar, the message and the help line, and the
    errors of the curses library, are left out. *)
Definition draw_text (d : Display) (e : TextEditor)
  : res (Display * list draw_call) :=
  let d := scroll d e in
  rows ← mapM (draw_row d e) (py_range 0 (text_height d));
  Ok (d, concat rows).

(** Where a call stops: the column after its last character. *)
Definition call_end (c : draw_call) : Z :=
  match c with
  | Addstr _ x text _ => x + slen text
  end.

Definition call_row (c : draw_call) : Z :=
  match c with
  | Addstr y _ _ _ => y
  end.

(* ===================================================================== *)
(** ** Configuration ([config_manager.py]) *)
(* ===================================================================== *)

(** The values [json.load] builds. *)
#[warnings="-register-all"]
Inductive json : Type :=
| JNull
| JBool (b : bool)
| JInt (z : Z)
| JFloat (q : Q)
| JStr (s : string)
| JList (l : list json)
| JObject (l : list (string * json)).

(** The object [Config]: its path and its dictionary. *)
Record Config : Type := mkConfig {
  config_path : string;
  config : gmap string json
}.

(** What the file system answers to [Config]: [dump_ok path] tells whether
    [open(path, 'w')] and [json.dump] succeed rather than raise [IOError]. *)
Record ConfigEnv : Type := mkConfigEnv {
  dump_ok : string -> bool
}.

(** A configuration written to a file. *)
Inductive config_effect : Type :=
| Dumped (path : string) (cfg : gmap string json).

(** [Config._save_config(config)]: an [IOError] is ignored. *)
Definition _save_config (cenv : ConfigEnv) (path : string)
    (cfg : gmap string json) : list config_effect :=
  if dump_ok cenv path then [Dumped path cfg] else [].

(** [Config.get(key, default)] *)
Definition Config_get (c : Config) (key : string) (default : json) : json :=
  match config c !! key with
  | Some v => v
  | None => default
  end.

(** [Config.set(key, value)] *)
Definition Config_set (cenv : ConfigEnv) (key : string) (value : json)
    (c : Config) : Config * list config_effect :=
  let c := mkConfig (config_path c) (<[key := value]> (config c)) in
  (c, _save_config cenv (config_path c) (config c)).

(* ===================================================================== *)
(** ** Facts about the Python primitives *)
(* ===================================================================== *)

Section PrimitiveFacts.

Lemma length_append (s t : string) :
  String.length (s +:+ t) = (String.length s + String.length t)%nat.
Proof. induction s as [|a s IH]; simpl; [reflexivity | now rewrite IH]. Qed.

Lemma slen_append (s t : string) : slen (s +:+ t) = slen s + slen t.
Proof. unfold slen. rewrite length_append. lia. Qed.

Lemma slen_nonneg (s : string) : 0 <= slen s.
Proof. unfold slen. lia. Qed.

Lemma length_str_take (n : nat) (s : string) :
  String.length (str_take n s) = Nat.min n (String.length s).
Proof.
  revert s. induction n as [|n IH]; intros [|a s]; simpl; try reflexivity.
  now rewrite IH.
Qed.

Lemma length_str_drop (n : nat) (s : string) :
  String.length (str_drop n s) = (String.length s - n)%nat.
Proof.
  revert s. induction n as [|n IH]; intros [|a s]; simpl; try reflexivity.
  apply IH.
Qed.

Lemma str_take_drop (n : nat) (s : string) : str_take n s +:+ str_drop n s = s.
Proof.
  revert s. induction n as [|n IH]; intros [|a s]; simpl; try reflexivity.
  unfold String.app in *. simpl. now rewrite IH.
Qed.

Lemma adjust_in_range (n : nat) (i : Z) :
  0 <= i <= Z.of_nat n -> adjust n i = Z.to_nat i.
Proof.
  intros H. unfold adjust. destruct (Z.ltb_spec i 0); [lia|].
  f_equal. lia.
Qed.

Lemma adjust_le (n : nat) (i : Z) : (adjust n i <= n)%nat.
Proof. unfold adjust. destruct (Z.ltb_spec i 0); lia. Qed.

Lemma slen_slice_to (s : string) (j : Z) :
  0 <= j <= slen s -> slen (slice_to s j) = j.
Proof.
  intros H. unfold slice_to, slen in *.
  rewrite adjust_in_range, length_str_take by lia. lia.
Qed.

Lemma slen_slice_from (s : string) (i : Z) :
  0 <= i <= slen s -> slen (slice_from s i) = slen s - i.
Proof.
  intros H. unfold slice_from, slen in *.
  rewrite adjust_in_range, length_str_drop by lia. lia.
Qed.

Lemma slice_to_from (s : string) (i : Z) : slice_to s i +:+ slice_from s i = s.
Proof. apply str_take_drop. Qed.

Lemma truthy_false_iff (s : string) : truthy s = false <-> s = EmptyString.
Proof. destruct s; simpl; split; congruence. Qed.

Lemma truthy_slen (s : string) : truthy s = true <-> 0 < slen s.
Proof. destruct s; unfold slen; simpl; split; intros; try lia; congruence. Qed.

Lemma item_in_range (n : nat) (i : Z) :
  0 <= i < Z.of_nat n -> item n i = Ok (Z.to_nat i).
Proof.
  intros H. unfold item.
  destruct (Z.ltb_spec i 0); [lia|].
  destruct (Z.ltb_spec i (Z.of_nat n)); [reflexivity | lia].
Qed.

Lemma getitem_in_range {A : Type} (l : list A) (i : Z) (x : A) :
  0 <= i -> l !! Z.to_nat i = Some x -> getitem l i = Ok x.
Proof.
  intros Hi Hx. unfold getitem.
  rewrite item_in_range.
  - simpl. now rewrite Hx.
  - apply lookup_lt_Some in Hx. lia.
Qed.

Lemma setitem_in_range {A : Type} (l : list A) (i : Z) (v : A) :
  0 <= i < len l -> setitem l i v = Ok (<[Z.to_nat i := v]> l).
Proof. intros H. unfold setitem. now rewrite item_in_range. Qed.

Lemma delitem_in_range {A : Type} (l : list A) (i : Z) :
  0 <= i < len l -> delitem l i = Ok (delete (Z.to_nat i) l).
Proof. intros H. unfold delitem. now rewrite item_in_range. Qed.

Lemma str_item_in_range (s : string) (k : nat) :
  (k < String.length s)%nat ->
  exists c, String.get k s = Some c /\ str_item s (Z.of_nat k) = Ok c.
Proof.
  intros H. unfold str_item. rewrite item_in_range by lia.
  rewrite Nat2Z.id. simpl.
  destruct (String.get k s) as [c|] eqn:E.
  - now exists c.
  - exfalso. revert k E H. induction s as [|a s IH]; intros k E H; simpl in *; [lia|].
    destruct k; [discriminate|]. apply (IH k E). lia.
Qed.

End PrimitiveFacts.

(** Runs the binds of the exception monad whose first computation is known. *)
Ltac res_simpl := unfold mbind, res_bind, Py.bind; simpl.

(* ===================================================================== *)
(** ** The cursor invariant *)
(* ===================================================================== *)

Section CursorInvariant.

Local Arguments String.eqb : simpl never.

Lemma get_current_line_inv (e : TextEditor) :
  cursor_inv e ->
  exists line, lines e !! Z.to_nat (cursor_y e) = Some line /\
               get_current_line e = Ok line /\
               0 <= cursor_x e <= slen line.
Proof.
  intros [Hy (line & Hl & Hx)]. exists line. repeat split; try tauto.
  unfold get_current_line.
  destruct (Z.ltb_spec (cursor_y e) (len (lines e))); [|lia].
  apply getitem_in_range; [lia | exact Hl].
Qed.

(** [check_suggestion_match] never raises and only touches the two
    suggestion fields. *)
Lemma check_suggestion_match_frame (char : string) (e : TextEditor) :
  exists sg k,
    check_suggestion_match char e
    = Ok (set_suggestion_match_pos k (set_suggestion sg e)).
Proof.
  unfold check_suggestion_match.
  destruct (truthy (suggestion e)) eqn:Ht; simpl.
  - destruct (Z.ltb_spec (Z.of_nat (suggestion_match_pos e)) (slen (suggestion e)))
      as [Hlt|Hge].
    + destruct (str_item_in_range (suggestion e) (suggestion_match_pos e))
        as (c & _ & ->); [unfold slen in Hlt; lia|].
      res_simpl. destruct (String.eqb (String c EmptyString) char).
      * exists (suggestion e), (suggestion_match_pos e + 1)%nat. now destruct e.
      * exists EmptyString, 0%nat. reflexivity.
    + exists EmptyString, 0%nat. reflexivity.
  - exists (suggestion e), (suggestion_match_pos e). now destruct e.
Qed.

Lemma insert_char_inv (now : Q) (c : ascii) (e : TextEditor) :
  cursor_inv e ->
  exists e', insert_char now (String c EmptyString) e = Ok e' /\ cursor_inv e'.
Proof.
  intros Hinv.
  destruct (get_current_line_inv e Hinv) as (line & Hl & Hcur & Hx).
  destruct Hinv as [Hy _].
  unfold insert_char. rewrite Hcur. res_simpl.
  rewrite setitem_in_range by exact Hy. res_simpl.
  match goal with |- context [check_suggestion_match ?ch ?e0] =>
    destruct (check_suggestion_match_frame ch e0) as (sg & k & ->) end.
  res_simpl. eexists; split; [reflexivity|].
  unfold cursor_inv, len; simpl. rewrite length_insert.
  split; [exact Hy|].
  eexists; split.
  - apply list_lookup_insert_eq. unfold len in Hy. lia.
  - rewrite !slen_append, slen_slice_to, slen_slice_from by lia.
    unfold slen in *; simpl. lia.
Qed.


(** [delete_char] under the cursor invariant: it never raises, keeps the
    invariant, clears the suggestion whenever the cursor is not at the very
    start of the buffer, and does nothing at all there. *)
Lemma delete_char_spec (now : Q) (e : TextEditor) :
  cursor_inv e ->
  exists e',
    delete_char now e = Ok e' /\ cursor_inv e' /\
    (0 < cursor_x e \/ 0 < cursor_y e -> suggestion e' = EmptyString) /\
    (cursor_x e = 0 -> cursor_y e = 0 -> e' = e).
Proof.
  intros Hinv.
  destruct (get_current_line_inv e Hinv) as (line & Hl & Hcur & Hx).
  destruct Hinv as [Hy _].
  unfold delete_char.
  destruct (Z.ltb_spec 0 (cursor_x e)) as [Hpos|Hzero].
  - (* a character is removed from the current line *)
    rewrite Hcur. res_simpl.
    rewrite setitem_in_range by exact Hy. res_simpl.
    eexists; split; [reflexivity|].
    split; [|split; [reflexivity | lia]].
    unfold cursor_inv, len; simpl. rewrite length_insert.
    split; [exact Hy|].
    eexists; split.
    + apply list_lookup_insert_eq. unfold len in Hy. lia.
    + rewrite slen_append, slen_slice_to, slen_slice_from by lia. lia.
  - destruct (Z.ltb_spec 0 (cursor_y e)) as [Hrow|Htop].
    + (* the current line is joined onto the previous one *)
      assert (Hprev : exists previous_line,
                 lines e !! Z.to_nat (cursor_y e - 1) = Some previous_line).
      { apply lookup_lt_is_Some. unfold len in Hy. lia. }
      destruct Hprev as (previous_line & Hp).
      rewrite getitem_in_range with (x := previous_line)
        by (lia || exact Hp).
      res_simpl.
      rewrite Hcur. res_simpl.
      rewrite setitem_in_range by lia. res_simpl.
      rewrite delitem_in_range by (unfold len in *; rewrite length_insert; lia).
      res_simpl.
      eexists; split; [reflexivity|].
      split; [|split; [reflexivity | lia]].
      unfold cursor_inv, len in *; simpl.
      rewrite length_delete, length_insert
        by (apply lookup_lt_is_Some; rewrite length_insert; lia).
      split; [lia|].
      exists (previous_line +:+ line). split.
      * rewrite list_lookup_delete_lt by lia.
        apply list_lookup_insert_eq. lia.
      * rewrite slen_append. pose proof (slen_nonneg previous_line).
        pose proof (slen_nonneg line). lia.
    + (* start of the buffer: nothing happens *)
      exists e. split; [reflexivity|].
      split; [|split; [lia | reflexivity]].
      split; [exact Hy|]. exists line. tauto.
Qed.

Lemma delete_char_inv (now : Q) (e : TextEditor) :
  cursor_inv e -> exists e', delete_char now e = Ok e' /\ cursor_inv e'.
Proof.
  intros Hinv. destruct (delete_char_spec now e Hinv) as (e' & H1 & H2 & _).
  now exists e'.
Qed.

Lemma insert_newline_inv (now : Q) (e : TextEditor) :
  cursor_inv e -> exists e', insert_newline now e = Ok e' /\ cursor_inv e'.
Proof.
  intros Hinv.
  destruct (get_current_line_inv e Hinv) as (line & Hl & Hcur & Hx).
  destruct Hinv as [Hy _].
  unfold insert_newline. rewrite Hcur. res_simpl.
  rewrite setitem_in_range by exact Hy. res_simpl.
  eexists; split; [reflexivity|].
  unfold cursor_inv, len, insert_at in *; simpl.
  rewrite length_insert, adjust_in_range by lia.
  rewrite length_app, length_take; simpl. rewrite length_drop, length_insert.
  split; [lia|].
  exists (slice_from line (cursor_x e)). split.
  - rewrite lookup_app_r by (rewrite length_take, length_insert; lia).
    rewrite length_take, length_insert.
    replace (Z.to_nat (cursor_y e + 1)
             - Z.to_nat (cursor_y e + 1) `min` length (lines e))%nat
      with 0%nat by lia.
    reflexivity.
  - pose proof (slen_nonneg (slice_from line (cursor_x e))). lia.
Qed.

Lemma move_cursor_inv (dy dx : Z) (e : TextEditor) :
  cursor_inv e -> exists e', move_cursor dy dx e = Ok e' /\ cursor_inv e'.
Proof.
  intros Hinv.
  assert (Hclear : cursor_inv
            (if negb (dy =? 0) || (dx <? 0) then clear_suggestion e else e)).
  { destruct (negb (dy =? 0) || (dx <? 0)); exact Hinv. }
  unfold move_cursor. cbv zeta.
  set (e0 := if negb (dy =? 0) || (dx <? 0) then clear_suggestion e else e) in *.
  clearbody e0. clear e Hinv.
  set (new_y := Z.max 0 (Z.min (len (lines e0) - 1) (cursor_y e0 + dy))).
  assert (Hny : 0 <= new_y < len (lines e0)).
  { destruct Hclear as [Hy _]. subst new_y. lia. }
  (* vertical movement *)
  assert (Hvert : exists e1,
    (if negb (new_y =? cursor_y e0) then
       line ← get_current_line (set_cursor_y new_y e0);
       Ok (set_cursor_x (Z.min (cursor_x (set_cursor_y new_y e0)) (slen line))
             (set_cursor_y new_y e0))
     else Ok e0) = Ok e1 /\ cursor_inv e1).
  { destruct (Z.eqb_spec new_y (cursor_y e0)) as [Heq|Hne]; simpl.
    - exists e0. split; [reflexivity | exact Hclear].
    - assert (Hline : exists line, lines e0 !! Z.to_nat new_y = Some line).
      { apply lookup_lt_is_Some. unfold len in Hny. lia. }
      destruct Hline as (line & Hline).
      unfold get_current_line; simpl.
      destruct (Z.ltb_spec new_y (len (lines e0))); [|lia].
      rewrite getitem_in_range with (x := line) by (lia || exact Hline).
      res_simpl.
      eexists; split; [reflexivity|].
      unfold cursor_inv; simpl. split; [exact Hny|].
      exists line. split; [exact Hline|].
      destruct Hclear as [_ (l0 & _ & Hx0)].
      pose proof (slen_nonneg line). lia. }
  destruct Hvert as (e1 & -> & Hinv1). res_simpl.
  (* horizontal movement *)
  destruct (Z.eqb_spec dx 0) as [Hdx|Hdx]; simpl.
  - exists e1. split; [reflexivity | exact Hinv1].
  - destruct (get_current_line_inv e1 Hinv1) as (line & Hl & -> & Hx).
    res_simpl. eexists; split; [reflexivity|].
    destruct Hinv1 as [Hy1 _].
    unfold cursor_inv; simpl. split; [exact Hy1|].
    exists line. split; [exact Hl|].
    pose proof (slen_nonneg line). lia.
Qed.

Lemma apply_op_inv (now : Q) (o : op) (e : TextEditor) :
  cursor_inv e -> exists e', apply_op now o e = Ok e' /\ cursor_inv e'.
Proof.
  destruct o; simpl.
  - apply insert_char_inv.
  - apply delete_char_inv.
  - apply insert_newline_inv.
  - apply move_cursor_inv.
Qed.

Lemma run_ops_inv (ops : list (Q * op)) (e : TextEditor) :
  cursor_inv e -> exists e', run_ops ops e = Ok e' /\ cursor_inv e'.
Proof.
  revert e. induction ops as [|[now o] ops IH]; intros e Hinv; simpl.
  - exists e. split; [reflexivity | exact Hinv].
  - destruct (apply_op_inv now o e Hinv) as (e1 & -> & Hinv1).
    res_simpl. apply IH, Hinv1.
Qed.

(** C1. Cursor invariant: from a buffer with a valid cursor (hence at least
    one line), after every operation of every sequence of [insert_char],
    [delete_char], [insert_newline] and [move_cursor] calls, no exception has
    been raised, [0 <= cursor_y < len(lines)] and
    [0 <= cursor_x <= len(lines[cursor_y])] hold, and [lines] is not
    empty.  "After every operation" is every prefix [take n ops]. *)
Theorem cursor_invariant (ops : list (Q * op)) (e : TextEditor) (n : nat) :
  cursor_inv e ->
  exists e', run_ops (take n ops) e = Ok e' /\ cursor_inv e' /\ lines e' <> [].
Proof.
  intros Hinv.
  destruct (run_ops_inv (take n ops) e Hinv) as (e' & Hrun & Hinv').
  exists e'. repeat split; try assumption; try apply Hinv'.
  destruct Hinv' as [Hy _]. intros Hnil. rewrite Hnil in Hy.
  unfold len in Hy. simpl in Hy. lia.
Qed.

Lemma cursor_invariant_witness :
  cursor_inv (new_editor true 200) /\
  exists e',
    run_ops (take 5 [(1%Q, InsertChar "a"); (2%Q, InsertNewline);
                     (3%Q, InsertChar "b"); (4%Q, DeleteChar);
                     (5%Q, MoveCursor (-1) 1)])
      (new_editor true 200) = Ok e' /\
    cursor_inv e' /\ lines e' <> [].
Proof.
  assert (H : cursor_inv (new_editor true 200)).
  { split; [unfold len; simpl; lia|].
    exists EmptyString. split; [reflexivity | unfold slen; simpl; lia]. }
  split; [exact H|]. apply cursor_invariant. exact H.
Defined.

End CursorInvariant.
(* ===================================================================== *)
(** ** The suggestion state machine *)
(* ===================================================================== *)

Section SuggestionMachine.

Local Arguments String.eqb : simpl never.

Lemma suggestion_state_Active (e : TextEditor) (text : string) (k : nat) :
  suggestion_state e = Active text k ->
  truthy (suggestion e) = true /\ suggestion e = text
  /\ suggestion_match_pos e = k.
Proof.
  unfold suggestion_state. destruct (truthy (suggestion e)); [|discriminate].
  intros [= <- <-]. tauto.
Qed.

Lemma suggestion_state_Empty (e : TextEditor) :
  suggestion_state e = Empty <-> suggestion e = EmptyString.
Proof.
  unfold suggestion_state. rewrite <- truthy_false_iff.
  destruct (truthy (suggestion e)); split; congruence.
Qed.

Lemma get_beyond (s : string) (k : nat) :
  (String.length s <= k)%nat -> String.get k s = None.
Proof.
  revert k. induction s as [|a s IH]; intros k H; simpl in *; [reflexivity|].
  destruct k; [lia|]. apply IH. lia.
Qed.

Lemma one_char_eqb (a b : ascii) :
  String.eqb (String a EmptyString) (String b EmptyString) = Ascii.eqb a b.
Proof.
  unfold String.eqb. destruct (Ascii.eqb a b); reflexivity.
Qed.

(** C2 (as stated) fails: retyping the last character of the suggestion
    leaves the exhausted suggestion stored, it does not make the state
    [Empty]. *)
Lemma match_last_char_stays_active :
  exists e e',
    suggestion_state e = Active "ab" 1 /\
    String.get 1 "ab" = Some "b"%char /\
    (1 + 1 = String.length "ab")%nat /\
    check_suggestion_match "b" e = Ok e' /\
    suggestion_state e' = Active "ab" 2 /\
    suggestion_state e' <> Empty.
Proof.
  exists (set_suggestion_match_pos 1 (set_suggestion "ab" (new_editor true 200))).
  eexists. repeat split; try reflexivity. discriminate.
Qed.

(** C2 (amended). In state [Active text k], observing the typed character
    [c] never raises, leaves buffer and cursor alone, and yields
    [Active text (k+1)] when [text[k]] exists and equals [c] (also when
    [k+1 = len(text)]: the exhausted suggestion stays stored), and [Empty]
    otherwise, that is on a mismatch or when the suggestion was already
    exhausted. *)
Theorem check_suggestion_match_law
    (e : TextEditor) (text : string) (k : nat) (c : ascii) :
  suggestion_state e = Active text k ->
  exists e',
    check_suggestion_match (String c EmptyString) e = Ok e' /\
    lines e' = lines e /\ cursor_y e' = cursor_y e /\
    cursor_x e' = cursor_x e /\
    suggestion_state e' =
      match String.get k text with
      | Some a => if Ascii.eqb a c then Active text (k + 1) else Empty
      | None => Empty
      end.
Proof.
  intros Hst. apply suggestion_state_Active in Hst as (Ht & Htext & Hk).
  unfold check_suggestion_match. rewrite Ht. simpl.
  rewrite Htext, Hk.
  destruct (Z.ltb_spec (Z.of_nat k) (slen text)) as [Hlt|Hge].
  - destruct (str_item_in_range text k) as (a & -> & ->);
      [unfold slen in Hlt; lia|].
    unfold mbind, res_bind, Py.bind. rewrite one_char_eqb.
    destruct (Ascii.eqb a c).
    + eexists; split; [reflexivity|]. repeat split.
      unfold suggestion_state; simpl. now rewrite Ht, Htext.
    + eexists; split; [reflexivity|]. repeat split.
  - rewrite get_beyond by (unfold slen in Hge; lia).
    eexists; split; [reflexivity|]. repeat split.
Qed.

Lemma check_suggestion_match_law_witness :
  suggestion_state
    (set_suggestion_match_pos 1 (set_suggestion "ab" (new_editor true 200)))
  = Active "ab" 1 /\
  exists e',
    check_suggestion_match "b"
      (set_suggestion_match_pos 1 (set_suggestion "ab" (new_editor true 200)))
    = Ok e' /\
    lines e' = [EmptyString] /\ cursor_y e' = 0 /\ cursor_x e' = 0 /\
    suggestion_state e' = Active "ab" 2.
Proof.
  split; [reflexivity|].
  apply (check_suggestion_match_law
           (set_suggestion_match_pos 1
              (set_suggestion "ab" (new_editor true 200))) "ab" 1 "b"%char).
  reflexivity.
Defined.

(** C3 (as stated) fails: the cursor column after the accept is not 16. *)
Lemma accept_scenario_column_not_16 :
  exists e e',
    lines e = ["Start"] /\ cursor_y e = 0 /\ cursor_x e = 5 /\
    suggestion_state e = Active " with more" 0 /\
    accept_suggestion e = Ok e' /\
    lines e' = ["Start with more"] /\
    cursor_x e' <> 16.
Proof.
  exists (set_suggestion " with more"
            (set_cursor_x 5 (set_lines ["Start"] (new_editor true 200)))).
  eexists. repeat split; try reflexivity. vm_compute. discriminate.
Qed.

(** C3 (amended). From [lines = ["Start"]], cursor [(0, 5)] and suggestion
    [Active{" with more", 0}], accept yields [lines = ["Start with more"]],
    cursor [(0, 15)] (5 plus the 10 characters inserted) and suggestion
    [Empty]. *)
Theorem accept_scenario (e : TextEditor) :
  lines e = ["Start"] -> cursor_y e = 0 -> cursor_x e = 5 ->
  suggestion_state e = Active " with more" 0 ->
  exists e',
    accept_suggestion e = Ok e' /\
    lines e' = ["Start with more"] /\
    cursor_y e' = 0 /\ cursor_x e' = 15 /\
    suggestion_state e' = Empty.
Proof.
  intros Hl Hy Hx Hst.
  apply suggestion_state_Active in Hst as (_ & Hs & Hk).
  destruct e; simpl in *; subst.
  eexists; split; [reflexivity|]. repeat split.
Qed.

Lemma accept_scenario_witness :
  exists e',
    accept_suggestion
      (set_suggestion " with more"
         (set_cursor_x 5 (set_lines ["Start"] (new_editor true 200))))
    = Ok e' /\
    lines e' = ["Start with more"] /\
    cursor_y e' = 0 /\ cursor_x e' = 15 /\
    suggestion_state e' = Empty.
Proof.
  apply (accept_scenario
           (set_suggestion " with more"
              (set_cursor_x 5 (set_lines ["Start"] (new_editor true 200)))));
    reflexivity.
Defined.

(** C10. Accept in state [Empty] returns without raising and without
    touching the editor: the buffer lines, the cursor and the [modified] flag
    (and every other field) are unchanged. *)
Theorem accept_empty_unchanged (e : TextEditor) :
  suggestion_state e = Empty ->
  exists e',
    accept_suggestion e = Ok e' /\
    lines e' = lines e /\ cursor_y e' = cursor_y e /\
    cursor_x e' = cursor_x e /\ modified e' = modified e /\
    e' = e.
Proof.
  intros Hst. apply suggestion_state_Empty in Hst.
  exists e. split; [|tauto].
  unfold accept_suggestion. now rewrite Hst.
Qed.

Lemma accept_empty_unchanged_witness :
  suggestion_state
    (set_modified true (set_lines ["Start"] (new_editor true 200))) = Empty /\
  exists e',
    accept_suggestion
      (set_modified true (set_lines ["Start"] (new_editor true 200))) = Ok e' /\
    lines e' = ["Start"] /\ cursor_y e' = 0 /\ cursor_x e' = 0 /\
    modified e' = true /\
    e' = set_modified true (set_lines ["Start"] (new_editor true 200)).
Proof.
  split; [reflexivity|].
  apply (accept_empty_unchanged
           (set_modified true (set_lines ["Start"] (new_editor true 200)))).
  reflexivity.
Defined.

End SuggestionMachine.
(* ===================================================================== *)
(** ** Deletion and the suggestion *)
(* ===================================================================== *)

Section Deletion.

Lemma handle_input_backspace (env : Env) (key : Z) (e : TextEditor) :
  key = KEY_BACKSPACE \/ key = 127 \/ key = 8 ->
  handle_input env key e = quiet (delete_char (clock env) e).
Proof. intros [-> | [-> | ->]]; reflexivity. Qed.

(** C7 (as stated) fails: a backspace with the cursor at the very start of
    the buffer leaves an active suggestion active. *)
Lemma backspace_at_start_keeps_suggestion :
  exists e e',
    cursor_x e = 0 /\ cursor_y e = 0 /\
    suggestion_state e = Active "abc" 0 /\
    handle_input (failing_env 10) 127 e = Ok (true, e', []) /\
    suggestion_state e' = Active "abc" 0 /\
    suggestion_state e' <> Empty.
Proof.
  exists (set_suggestion "abc" (set_lines ["Hello"] (new_editor true 200))).
  eexists. repeat split; try reflexivity. discriminate.
Qed.

(** C7 (amended). A backspace event on an editor with a valid cursor never
    raises and keeps the main loop running; when the cursor is not at the
    very start of the buffer ([col > 0] or [row > 0]) the suggestion state
    afterwards is [Empty], whatever it was; at the very start of the buffer
    the event changes nothing, the suggestion included. *)
Theorem backspace_suggestion (env : Env) (key : Z) (e : TextEditor) :
  key = KEY_BACKSPACE \/ key = 127 \/ key = 8 ->
  cursor_inv e ->
  exists e',
    handle_input env key e = Ok (true, e', []) /\
    (0 < cursor_x e \/ 0 < cursor_y e -> suggestion_state e' = Empty) /\
    (cursor_x e = 0 -> cursor_y e = 0 -> e' = e).
Proof.
  intros Hkey Hinv. rewrite (handle_input_backspace env key e Hkey).
  destruct (delete_char_spec (clock env) e Hinv) as (e' & -> & _ & Hclr & Hnop).
  exists e'. split; [reflexivity|]. split; [|exact Hnop].
  intros H. apply suggestion_state_Empty, Hclr, H.
Qed.

Lemma backspace_suggestion_witness :
  cursor_inv (set_suggestion "abc"
                (set_cursor_x 2 (set_lines ["Hello"] (new_editor true 200)))) /\
  exists e',
    handle_input (failing_env 10) 127
      (set_suggestion "abc"
         (set_cursor_x 2 (set_lines ["Hello"] (new_editor true 200))))
    = Ok (true, e', []) /\
    suggestion_state e' = Empty.
Proof.
  assert (H : cursor_inv
                (set_suggestion "abc"
                   (set_cursor_x 2 (set_lines ["Hello"] (new_editor true 200))))).
  { split; [unfold len; simpl; lia|].
    exists "Hello". split; [reflexivity | unfold slen; simpl; lia]. }
  split; [exact H|].
  destruct (backspace_suggestion (failing_env 10) 127 _ (or_intror (or_introl eq_refl)) H)
    as (e' & Hrun & Hclr & _).
  exists e'. split; [exact Hrun|]. apply Hclr. left. simpl. lia.
Defined.

End Deletion.

(* ===================================================================== *)
(** ** Persistence *)
(* ===================================================================== *)

Section Persistence.

Lemma split_without_sep (c : ascii) (s : string) :
  contains c s = false -> split c s = [s].
Proof.
  induction s as [|a s IH]; simpl; [reflexivity|].
  destruct (Ascii.eqb a c); simpl; [discriminate|].
  intros H. now rewrite (IH H).
Qed.

Lemma split_at_sep (c : ascii) (s t : string) :
  contains c s = false ->
  split c (s +:+ String c t) = s :: split c t.
Proof.
  induction s as [|a s IH]; intros H.
  - change (EmptyString +:+ String c t) with (String c t).
    simpl. now rewrite Ascii.eqb_refl.
  - change (String a s +:+ String c t) with (String a (s +:+ String c t)).
    simpl in *. destruct (Ascii.eqb a c); [discriminate|].
    now rewrite (IH H).
Qed.

Lemma split_join (ls : list string) :
  ls <> [] ->
  Forall (fun s => contains NL s = false) ls ->
  split NL (join NLs ls) = ls.
Proof.
  induction ls as [|s rest IH]; [congruence|].
  intros _ Hall. apply Forall_cons in Hall as [Hs Hrest].
  destruct rest as [|t rest].
  - simpl. now apply split_without_sep.
  - change (join NLs (s :: t :: rest))
      with (s +:+ NLs +:+ join NLs (t :: rest)).
    unfold NLs at 1.
    change (String NL EmptyString +:+ join NLs (t :: rest))
      with (String NL (join NLs (t :: rest))).
    rewrite split_at_sep by exact Hs.
    f_equal. apply IH; [discriminate | exact Hrest].
Qed.

Lemma split_nonempty (c : ascii) (s : string) : split c s <> [].
Proof.
  destruct s as [|a s]; simpl; [discriminate|].
  destruct (Ascii.eqb a c); [discriminate|].
  destruct (split c s); discriminate.
Qed.

Lemma load_content_serialize (ls : list string) :
  ls <> [] ->
  Forall (fun s => contains NL s = false) ls ->
  load_content (serialize ls) = ls.
Proof.
  intros Hne Hall. unfold load_content, serialize.
  pose proof (split_join ls Hne Hall) as Hsplit.
  destruct (join NLs ls) eqn:E; simpl; [|exact Hsplit].
  simpl in Hsplit. now rewrite <- Hsplit.
Qed.

(** A successful save followed by a load of what was written gives the
    lines back, through [save_file] and [load_file]. *)
Lemma save_then_load (env env' : Env) (path : string) (e e1 e2 : TextEditor)
    (data : string) :
  lines e <> [] ->
  Forall (fun s => contains NL s = false) (lines e) ->
  save_file env (Some path) e = (e1, [Wrote path data]) ->
  read_result env' path = Done data ->
  lines (load_file env' path e2) = lines e.
Proof.
  intros Hne Hall Hsave Hread. unfold load_file. rewrite Hread. simpl.
  unfold save_file in Hsave.
  destruct (truthy_opt (Some path)); simpl in Hsave.
  - destruct (truthy path); [|discriminate].
    destruct (write_result env path (serialize (lines e))); [|discriminate].
    injection Hsave as _ <-.
    now apply load_content_serialize.
  - destruct (filename e) as [p|]; [|discriminate].
    destruct (truthy p); [|discriminate].
    destruct (write_result env p (serialize (lines e))); [|discriminate].
    injection Hsave as _ _ <-.
    now apply load_content_serialize.
Qed.

(** The list of no lines is not a buffer: a buffer always holds at least one
    line.  It would serialize to the empty text, which loads as the single
    empty line. *)
Lemma no_lines_load_as_one_line :
  load_content (serialize []) = [EmptyString].
Proof. reflexivity. Qed.

(** C6. For every list of lines of a buffer (a buffer always holds at least
    one line) in which no line contains the line separator, loading the
    serialized lines reproduces the list; loading the empty content yields
    the single empty line, and no content loads as zero lines. *)
Theorem load_serialize_roundtrip (ls : list string) :
  (ls <> [] ->
   Forall (fun s => contains NL s = false) ls ->
   load_content (serialize ls) = ls) /\
  load_content EmptyString = [EmptyString] /\
  (forall content, load_content content <> []).
Proof.
  split; [|split].
  - apply load_content_serialize.
  - reflexivity.
  - intros content. unfold load_content.
    destruct (truthy content); [apply split_nonempty | discriminate].
Qed.

Lemma load_serialize_roundtrip_witness :
  ["Line 1"; EmptyString; "Line 3"] <> [] /\
  Forall (fun s => contains NL s = false) ["Line 1"; EmptyString; "Line 3"] /\
  load_content (serialize ["Line 1"; EmptyString; "Line 3"])
  = ["Line 1"; EmptyString; "Line 3"].
Proof.
  assert (Hne : ["Line 1"; EmptyString; "Line 3"] <> []) by discriminate.
  assert (Hall : Forall (fun s => contains NL s = false)
                   ["Line 1"; EmptyString; "Line 3"])
    by (repeat constructor).
  split; [exact Hne|]. split; [exact Hall|].
  exact (proj1 (load_serialize_roundtrip ["Line 1"; EmptyString; "Line 3"])
           Hne Hall).
Defined.

(** C8. I/O failures leave the editor state intact: a load that fails with
    an [IOError] leaves lines, cursor, filename and [modified] unchanged; a
    save whose write fails with an [IOError] leaves the lines and [modified]
    unchanged (so [modified] is still true if it was), and nothing is
    written. *)
Theorem io_failure_keeps_state (env : Env) (e : TextEditor) :
  (forall name msg,
     read_result env name = IOError msg ->
     lines (load_file env name e) = lines e /\
     cursor_y (load_file env name e) = cursor_y e /\
     cursor_x (load_file env name e) = cursor_x e /\
     filename (load_file env name e) = filename e /\
     modified (load_file env name e) = modified e) /\
  (forall name path msg,
     save_path name e = Some path ->
     write_result env path (serialize (lines e)) = IOError msg ->
     lines (save_file env name e).1 = lines e /\
     modified (save_file env name e).1 = modified e /\
     (modified e = true -> modified (save_file env name e).1 = true) /\
     (save_file env name e).2 = []).
Proof.
  split.
  - intros name msg Hread. unfold load_file. rewrite Hread. simpl. tauto.
  - intros name path msg Hpath Hwrite. unfold save_file, save_path in *.
    destruct (truthy_opt name); simpl.
    + rewrite Hpath. destruct (truthy path); [|simpl; tauto].
      rewrite Hwrite. simpl. tauto.
    + rewrite Hpath. destruct (truthy path); [|simpl; tauto].
      rewrite Hwrite. simpl. tauto.
Qed.

Lemma io_failure_keeps_state_witness :
  lines (load_file (failing_env 10) "notes.txt"
           (set_modified true (set_lines ["Hello"] (new_editor true 200))))
  = ["Hello"] /\
  modified (save_file (failing_env 10) (Some "notes.txt")
              (set_modified true (set_lines ["Hello"] (new_editor true 200)))).1
  = true.
Proof.
  split.
  - apply (io_failure_keeps_state (failing_env 10)
             (set_modified true (set_lines ["Hello"] (new_editor true 200))))
      with (msg := "denied").
    reflexivity.
  - apply (proj2 (io_failure_keeps_state (failing_env 10)
             (set_modified true (set_lines ["Hello"] (new_editor true 200))))
             (Some "notes.txt") "notes.txt" "denied");
      reflexivity.
Defined.

Lemma save_file_no_filename (env : Env) (e : TextEditor) :
  filename e = None ->
  save_file env None e = (set_status (clock env) "No filename specified" e, []).
Proof. intros H. unfold save_file. simpl. now rewrite H. Qed.

(** C9, at the input of the repository's own save test (lines
    [["Test content"]], [modified] set, no filename), with a file system
    that accepts every write: [save_file()] writes nothing, leaves
    [filename] unset and [modified] set, and reports
    "No filename specified". *)
Theorem save_without_filename_writes_nothing :
  let e := set_modified true (set_lines ["Test content"] (new_editor true 200)) in
  filename e = None /\
  save_file (writable_env 10) None e
  = (set_status 10 "No filename specified" e, []) /\
  filename (save_file (writable_env 10) None e).1 = None /\
  modified (save_file (writable_env 10) None e).1 = true.
Proof. repeat split. Qed.

End Persistence.
(* ===================================================================== *)
(** ** The idle-time completion request *)
(* ===================================================================== *)

Section IdleRequest.

Lemma idle_spec (env : Env) (e : TextEditor) :
  idle env e
  = if idle_requests env e then request_ai_completion env e else Ok (e, []).
Proof.
  unfold idle, idle_requests.
  destruct (ai_enabled e && negb (truthy (suggestion e))
            && negb (requesting_completion e)); simpl; [|reflexivity].
  destruct (Qlt_bool (delay_seconds e) (clock env - last_input_time e));
    simpl; reflexivity.
Qed.

Lemma handle_input_idle (env : Env) (e : TextEditor) :
  handle_input env (-1) e = (r ← idle env e; Ok (true, r.1, r.2)).
Proof. reflexivity. Qed.

Lemma Qlt_bool_iff (a b : Q) : Qlt_bool a b = true <-> (a < b)%Q.
Proof.
  unfold Qlt_bool. rewrite negb_true_iff.
  split.
  - intros H. apply Qnot_le_lt. intros Hle.
    apply Qle_bool_iff in Hle. congruence.
  - intros H. destruct (Qle_bool b a) eqn:E; [|reflexivity].
    apply Qle_bool_iff in E. exfalso. exact (Qlt_not_le _ _ H E).
Qed.

Lemma py_range_bounds (a b : Z) : Forall (fun i => a <= i < b) (py_range a b).
Proof.
  unfold py_range. apply Forall_forall. intros i Hi.
  apply list_elem_of_In, in_map_iff in Hi as (k & <- & Hk).
  apply in_seq in Hk. lia.
Qed.

Lemma mapM_getitem_total {A : Type} (l : list A) (idxs : list Z) :
  Forall (fun i => 0 <= i < len l) idxs ->
  exists k, mapM (getitem l) idxs = Ok k.
Proof.
  induction 1 as [|i idxs Hi _ (k & IH)]; simpl.
  - now exists [].
  - destruct (lookup_lt_is_Some_2 l (Z.to_nat i)) as (x & Hx);
      [unfold len in Hi; lia|].
    rewrite getitem_in_range with (x := x) by (lia || exact Hx).
    rewrite IH. res_simpl. now eexists.
Qed.

Lemma get_context_total (max_chars : Z) (e : TextEditor) :
  cursor_inv e -> exists context, get_context_before_cursor max_chars e = Ok context.
Proof.
  intros Hinv.
  destruct (get_current_line_inv e Hinv) as (line & _ & Hcur & _).
  destruct Hinv as [Hy _].
  unfold get_context_before_cursor.
  destruct (mapM_getitem_total (lines e)
              (py_range (Z.max 0 (cursor_y e - 10)) (cursor_y e)))
    as (previous & ->).
  { eapply Forall_impl; [apply py_range_bounds|]. simpl. intros i Hi. lia. }
  rewrite Hcur. res_simpl.
  match goal with |- context [if ?b then _ else _] => destruct b end;
    now eexists.
Qed.

Lemma get_completion_effect (env : Env) (text : string) (c c' : AICompleter)
    (s : string) (out : list effect) :
  get_completion env text c = (Some s, c', out) -> out = [Requested text].
Proof.
  unfold get_completion.
  destruct (negb (client c) || negb (truthy (strip text))); [discriminate|].
  destruct (Qlt_bool _ _); [discriminate|].
  destruct (provider env text) as [content|]; [|discriminate].
  destruct (truthy content); [|discriminate].
  now intros [= _ _ <-].
Qed.

(** [request_ai_completion] under the cursor invariant: it never raises,
    leaves buffer, cursor, edit time and switches alone, and either keeps the
    suggestion fields or replaces them by a non-empty answer to the context
    of the present buffer, at match position 0. *)
Lemma request_ai_completion_spec (env : Env) (e : TextEditor) :
  cursor_inv e ->
  exists e' out,
    request_ai_completion env e = Ok (e', out) /\
    lines e' = lines e /\ cursor_y e' = cursor_y e /\
    cursor_x e' = cursor_x e /\
    last_input_time e' = last_input_time e /\
    ai_enabled e' = ai_enabled e /\
    pause_delay_ms e' = pause_delay_ms e /\
    ((suggestion e' = suggestion e /\
      suggestion_match_pos e' = suggestion_match_pos e) \/
     (exists context text,
        get_context_before_cursor 500 e = Ok context /\
        out = [Requested context] /\
        suggestion_state e' = Active text 0)).
Proof.
  intros Hinv. unfold request_ai_completion.
  destruct (negb (ai_enabled e) || negb (is_available (ai_completer e))).
  { exists e, []. tauto. }
  destruct (requesting_completion e).
  { exists e, []. tauto. }
  destruct (get_context_total 500 e Hinv) as (context & Hctx).
  rewrite Hctx. res_simpl.
  destruct (truthy (strip context)); simpl.
  2:{ exists e, []. tauto. }
  destruct (get_completion env context (ai_completer e))
    as [[completion c] out] eqn:Hget.
  destruct completion as [s|]; simpl.
  - destruct (truthy s) eqn:Hs.
    + eexists _, out. split; [reflexivity|]. simpl.
      repeat (split; [reflexivity|]).
      right. exists context, s. split; [reflexivity|].
      split; [exact (get_completion_effect _ _ _ _ _ _ Hget)|].
      unfold suggestion_state. simpl. now rewrite Hs.
    + eexists _, out. split; [reflexivity|]. simpl.
      repeat (split; [reflexivity|]). left. tauto.
  - eexists _, out. split; [reflexivity|]. simpl.
    repeat (split; [reflexivity|]). left. tauto.
Qed.

(** [request_ai_completion] itself does not look at the suggestion fields:
    called with a suggestion stored, it would replace it.  Its one caller,
    the idle branch of [handle_input], calls it with no suggestion stored
    only. *)
Lemma request_overwrites_active_suggestion :
  exists e e' out,
    suggestion_state e = Active "old" 1 /\
    request_ai_completion (answering_env 10 "new") e = Ok (e', out) /\
    suggestion_state e' = Active "new" 0.
Proof.
  exists (set_suggestion_match_pos 1
            (set_suggestion "old"
               (set_cursor_x 5 (set_lines ["Hello"] (new_editor true 200))))).
  eexists _, _. repeat split; reflexivity.
Qed.









End IdleRequest.

(* ===================================================================== *)
(** ** What the buffer operations do to the text *)
(* ===================================================================== *)

Section BufferEdits.

Local Arguments String.eqb : simpl never.

Lemma append_assoc (a b c : string) : (a +:+ b) +:+ c = a +:+ (b +:+ c).
Proof.
  induction a as [|x a IH]; [reflexivity|].
  change (String x ((a +:+ b) +:+ c) = String x (a +:+ (b +:+ c))).
  now rewrite IH.
Qed.

Lemma append_empty_r (a : string) : a +:+ EmptyString = a.
Proof.
  induction a as [|x a IH]; [reflexivity|].
  change (String x (a +:+ EmptyString) = String x a). now rewrite IH.
Qed.

Lemma str_take_append (a b : string) : str_take (String.length a) (a +:+ b) = a.
Proof.
  induction a as [|x a IH]; simpl.
  - now destruct (EmptyString +:+ b).
  - change (String x (str_take (String.length a) (a +:+ b)) = String x a).
    now rewrite IH.
Qed.

Lemma str_drop_append (a b : string) : str_drop (String.length a) (a +:+ b) = b.
Proof.
  induction a as [|x a IH]; [reflexivity|].
  change (str_drop (String.length a) (a +:+ b) = b). exact IH.
Qed.

Lemma slice_to_append (a b : string) : slice_to (a +:+ b) (slen a) = a.
Proof.
  unfold slice_to, slen. rewrite adjust_in_range.
  - rewrite Nat2Z.id. apply str_take_append.
  - rewrite length_append. lia.
Qed.

Lemma slice_from_append (a b : string) : slice_from (a +:+ b) (slen a) = b.
Proof.
  unfold slice_from, slen. rewrite adjust_in_range.
  - rewrite Nat2Z.id. apply str_drop_append.
  - rewrite length_append. lia.
Qed.

(** The current line split at the cursor. *)
Lemma line_at_cursor (e : TextEditor) :
  cursor_inv e ->
  exists before after,
    lines e !! Z.to_nat (cursor_y e) = Some (before +:+ after) /\
    get_current_line e = Ok (before +:+ after) /\
    slen before = cursor_x e /\
    slice_to (before +:+ after) (cursor_x e) = before /\
    slice_from (before +:+ after) (cursor_x e) = after.
Proof.
  intros Hinv.
  destruct (get_current_line_inv e Hinv) as (line & Hl & Hcur & Hx).
  exists (slice_to line (cursor_x e)), (slice_from line (cursor_x e)).
  rewrite slice_to_from. repeat split; try assumption.
  now apply slen_slice_to.
Qed.

(** X1. What [insert_char] does, for a one-character argument: the character
    goes in at the cursor, the cursor moves one column right, the buffer is
    marked modified and the edit time recorded. *)
Theorem insert_char_effect (now : Q) (c : ascii) (e : TextEditor) :
  cursor_inv e ->
  exists e' before after,
    insert_char now (String c EmptyString) e = Ok e' /\
    lines e !! Z.to_nat (cursor_y e) = Some (before +:+ after) /\
    slen before = cursor_x e /\
    lines e' = <[Z.to_nat (cursor_y e) := before +:+ String c after]> (lines e) /\
    cursor_y e' = cursor_y e /\ cursor_x e' = cursor_x e + 1 /\
    modified e' = true /\ last_input_time e' = now.
Proof.
  intros Hinv.
  destruct (line_at_cursor e Hinv) as (before & after & Hl & Hcur & Hb & Hto & Hfrom).
  destruct Hinv as [Hy _].
  unfold insert_char. rewrite Hcur. res_simpl. rewrite Hto, Hfrom.
  rewrite setitem_in_range by exact Hy. res_simpl.
  match goal with |- context [check_suggestion_match ?ch ?e0] =>
    destruct (check_suggestion_match_frame ch e0) as (sg & k & ->) end.
  res_simpl. eexists _, before, after. split; [reflexivity|].
  simpl. repeat split; assumption.
Qed.

Lemma insert_char_effect_witness :
  exists e' before after,
    insert_char 7 "c" (set_cursor_x 2 (set_lines ["abde"] (new_editor true 200)))
    = Ok e' /\
    [("abde" : string)] !! Z.to_nat 0 = Some (before +:+ after) /\
    slen before = 2 /\
    lines e' = <[Z.to_nat 0 := before +:+ String "c" after]> ["abde"] /\
    cursor_y e' = 0 /\ cursor_x e' = 2 + 1 /\
    modified e' = true /\ last_input_time e' = 7%Q.
Proof.
  apply (insert_char_effect 7 "c"
           (set_cursor_x 2 (set_lines ["abde"] (new_editor true 200)))).
  split; [unfold len; simpl; lia|].
  exists "abde". split; [reflexivity | unfold slen; simpl; lia].
Defined.

Lemma str_split_at (s : string) (n : nat) :
  (n < String.length s)%nat ->
  exists c, s = str_take n s +:+ String c (str_drop (S n) s).
Proof.
  revert s. induction n as [|n IH]; intros [|a s] H; simpl in H; try lia.
  - exists a. reflexivity.
  - destruct (IH s ltac:(lia)) as (c & Hc). exists c.
    change (String a s = String a (str_take n s +:+ String c (str_drop (S n) s))).
    now rewrite <- Hc.
Qed.

(** X2. What a backspace inside a line does: the character before the cursor
    goes, the cursor moves one column left, everything else stays, and no
    suggestion is left. *)
Theorem delete_char_removes_char (now : Q) (e : TextEditor) :
  cursor_inv e -> 0 < cursor_x e ->
  exists e' before c after,
    delete_char now e = Ok e' /\
    lines e !! Z.to_nat (cursor_y e) = Some (before +:+ String c after) /\
    slen before = cursor_x e - 1 /\
    lines e' = <[Z.to_nat (cursor_y e) := before +:+ after]> (lines e) /\
    cursor_y e' = cursor_y e /\ cursor_x e' = cursor_x e - 1 /\
    modified e' = true /\ suggestion_state e' = Empty.
Proof.
  intros Hinv Hpos.
  destruct (get_current_line_inv e Hinv) as (line & Hl & Hcur & Hx).
  destruct Hinv as [Hy _].
  destruct (str_split_at line (Z.to_nat (cursor_x e - 1))) as (c & Hc);
    [unfold slen in Hx; lia|].
  unfold delete_char.
  destruct (Z.ltb_spec 0 (cursor_x e)) as [_|Hneg]; [|lia].
  rewrite Hcur. res_simpl.
  rewrite setitem_in_range by exact Hy. res_simpl.
  exists (set_last_input_time now
            (clear_suggestion
               (set_modified true
                  (set_cursor_x (cursor_x e - 1)
                     (set_lines
                        (<[Z.to_nat (cursor_y e)
                           := slice_to line (cursor_x e - 1)
                              +:+ slice_from line (cursor_x e)]> (lines e))
                        e))))),
         (slice_to line (cursor_x e - 1)), c, (slice_from line (cursor_x e)).
  split; [reflexivity|]. simpl.
  repeat split; try lia.
  - rewrite Hl. f_equal. rewrite Hc at 1.
    unfold slice_to, slice_from.
    rewrite !adjust_in_range by (unfold slen in Hx; lia).
    now replace (Z.to_nat (cursor_x e)) with (S (Z.to_nat (cursor_x e - 1))) by lia.
  - apply slen_slice_to. lia.
Qed.

Lemma delete_char_removes_char_witness :
  exists e' before c after,
    delete_char 7 (set_cursor_x 3 (set_lines ["abcde"] (new_editor true 200)))
    = Ok e' /\
    [("abcde" : string)] !! Z.to_nat 0 = Some (before +:+ String c after) /\
    slen before = 3 - 1 /\
    lines e' = <[Z.to_nat 0 := before +:+ after]> ["abcde"] /\
    cursor_y e' = 0 /\ cursor_x e' = 3 - 1 /\
    modified e' = true /\ suggestion_state e' = Empty.
Proof.
  apply (delete_char_removes_char 7
           (set_cursor_x 3 (set_lines ["abcde"] (new_editor true 200)))).
  - split; [unfold len; simpl; lia|].
    exists "abcde". split; [reflexivity | unfold slen; simpl; lia].
  - simpl. lia.
Defined.

(** X3. Backspace undoes typing: after [insert_char] then [delete_char] the
    lines and the cursor are what they were; the buffer stays marked
    modified and no suggestion is left. *)
Theorem insert_then_delete_restores (now now' : Q) (c : ascii) (e : TextEditor) :
  cursor_inv e ->
  exists e1 e2,
    insert_char now (String c EmptyString) e = Ok e1 /\
    delete_char now' e1 = Ok e2 /\
    lines e2 = lines e /\ cursor_y e2 = cursor_y e /\
    cursor_x e2 = cursor_x e /\
    modified e2 = true /\ suggestion_state e2 = Empty.
Proof.
  intros Hinv.
  destruct (insert_char_effect now c e Hinv)
    as (e1 & before & after & Hins & Hl & Hb & Hl1 & Hy1 & Hx1 & _).
  destruct Hinv as [Hy (line0 & _ & Hx)].
  exists e1. unfold delete_char.
  destruct (Z.ltb_spec 0 (cursor_x e1)) as [_|Hneg]; [|lia].
  assert (Hlook : lines e1 !! Z.to_nat (cursor_y e1)
                  = Some (before +:+ String c after)).
  { rewrite Hl1, Hy1. apply list_lookup_insert_eq. unfold len in Hy. lia. }
  assert (Hcur : get_current_line e1 = Ok (before +:+ String c after)).
  { unfold get_current_line.
    assert (Hlen : len (lines e1) = len (lines e))
      by (unfold len; now rewrite Hl1, length_insert).
    destruct (Z.ltb_spec (cursor_y e1) (len (lines e1))); [|lia].
    apply getitem_in_range; [lia | exact Hlook]. }
  rewrite Hcur. res_simpl.
  replace (cursor_x e1 - 1) with (slen before) by lia.
  rewrite slice_to_append.
  replace (cursor_x e1) with (slen (before +:+ String c EmptyString))
    by (rewrite slen_append; unfold slen at 2; simpl; lia).
  replace (before +:+ String c after)
    with ((before +:+ String c EmptyString) +:+ after)
    by (now rewrite append_assoc).
  rewrite slice_from_append.
  rewrite setitem_in_range
    by (unfold len in *; rewrite Hl1, length_insert, Hy1; lia).
  res_simpl. eexists. split; [exact Hins|]. split; [reflexivity|].
  simpl. rewrite Hl1, Hy1, list_insert_insert_eq.
  repeat split; try lia.
  apply list_insert_id. exact Hl.
Qed.

Lemma insert_then_delete_restores_witness :
  exists e1 e2,
    insert_char 7 "c" (set_cursor_x 2 (set_lines ["abde"] (new_editor true 200)))
    = Ok e1 /\
    delete_char 8 e1 = Ok e2 /\
    lines e2 = ["abde"] /\ cursor_y e2 = 0 /\ cursor_x e2 = 2 /\
    modified e2 = true /\ suggestion_state e2 = Empty.
Proof.
  apply (insert_then_delete_restores 7 8 "c"
           (set_cursor_x 2 (set_lines ["abde"] (new_editor true 200)))).
  split; [unfold len; simpl; lia|].
  exists "abde". split; [reflexivity | unfold slen; simpl; lia].
Defined.

(** The lines around the cursor row. *)
Lemma lines_around_cursor (e : TextEditor) (line : string) :
  0 <= cursor_y e ->
  lines e !! Z.to_nat (cursor_y e) = Some line ->
  exists above below,
    lines e = above ++ line :: below /\
    length above = Z.to_nat (cursor_y e).
Proof.
  intros Hy Hl.
  exists (take (Z.to_nat (cursor_y e)) (lines e)),
         (drop (S (Z.to_nat (cursor_y e))) (lines e)).
  split.
  - symmetry. now apply take_drop_middle.
  - apply length_take_le. apply lookup_lt_Some in Hl. lia.
Qed.

(** X4. What [insert_newline] does: the current line is split at the cursor
    into two consecutive lines, everything else stays, and the cursor goes
    to the start of the second one. *)
Theorem insert_newline_effect (now : Q) (e : TextEditor) :
  cursor_inv e ->
  exists e' above before after below,
    insert_newline now e = Ok e' /\
    lines e = above ++ (before +:+ after) :: below /\
    length above = Z.to_nat (cursor_y e) /\
    slen before = cursor_x e /\
    lines e' = above ++ before :: after :: below /\
    cursor_y e' = cursor_y e + 1 /\ cursor_x e' = 0 /\
    modified e' = true /\ suggestion_state e' = Empty.
Proof.
  intros Hinv.
  destruct (line_at_cursor e Hinv) as (before & after & Hl & Hcur & Hb & Hto & Hfrom).
  destruct Hinv as [Hy _].
  destruct (lines_around_cursor e _ (proj1 Hy) Hl) as (above & below & Hsplit & Hlen).
  unfold insert_newline. rewrite Hcur. res_simpl. rewrite Hto, Hfrom.
  rewrite setitem_in_range by exact Hy. res_simpl.
  eexists _, above, before, after, below. split; [reflexivity|].
  simpl. repeat split; try assumption.
  assert (Hins : <[Z.to_nat (cursor_y e) := before]> (lines e)
                 = (above ++ [before]) ++ below).
  { rewrite Hsplit, <- Hlen.
    replace (length above) with (length above + 0)%nat at 1 by lia.
    rewrite insert_app_r. simpl. now rewrite <- app_assoc. }
  unfold insert_at. rewrite length_insert.
  rewrite adjust_in_range by (unfold len in Hy; lia).
  rewrite Hins.
  rewrite take_app_length', drop_app_length'
    by (rewrite length_app; simpl; lia).
  now rewrite <- app_assoc.
Qed.

Lemma insert_newline_effect_witness :
  exists e' above before after below,
    insert_newline 7 (set_cursor_y 1 (set_cursor_x 2
       (set_lines ["one"; "abde"; "two"] (new_editor true 200)))) = Ok e' /\
    ["one"; "abde"; "two"] = above ++ (before +:+ after) :: below /\
    length above = Z.to_nat 1 /\
    slen before = 2 /\
    lines e' = above ++ before :: after :: below /\
    cursor_y e' = 1 + 1 /\ cursor_x e' = 0 /\
    modified e' = true /\ suggestion_state e' = Empty.
Proof.
  apply (insert_newline_effect 7
           (set_cursor_y 1 (set_cursor_x 2
              (set_lines ["one"; "abde"; "two"] (new_editor true 200))))).
  split; [unfold len; simpl; lia|].
  exists "abde". split; [reflexivity | unfold slen; simpl; lia].
Defined.

(** X5. What a backspace at the start of a line below the first does: the line
    is joined onto the end of the previous one, everything else stays, and
    the cursor goes to the joint. *)
Theorem delete_char_joins_lines (now : Q) (e : TextEditor) :
  cursor_inv e -> cursor_x e = 0 -> 0 < cursor_y e ->
  exists e' above previous current below,
    delete_char now e = Ok e' /\
    lines e = above ++ previous :: current :: below /\
    length above = Z.to_nat (cursor_y e - 1) /\
    lines e' = above ++ (previous +:+ current) :: below /\
    cursor_y e' = cursor_y e - 1 /\ cursor_x e' = slen previous /\
    modified e' = true /\ suggestion_state e' = Empty.
Proof.
  intros Hinv Hx Hrow.
  destruct (get_current_line_inv e Hinv) as (current & Hl & Hcur & _).
  destruct Hinv as [Hy _].
  destruct (lookup_lt_is_Some_2 (lines e) (Z.to_nat (cursor_y e - 1)))
    as (previous & Hp); [unfold len in Hy; lia|].
  assert (Hsplit : exists above below,
             lines e = above ++ previous :: current :: below /\
             length above = Z.to_nat (cursor_y e - 1)).
  { exists (take (Z.to_nat (cursor_y e - 1)) (lines e)),
           (drop (S (Z.to_nat (cursor_y e))) (lines e)).
    split.
    - rewrite <- (take_drop_middle (lines e) (Z.to_nat (cursor_y e - 1)) previous)
        at 1 by exact Hp.
      do 2 f_equal.
      replace (S (Z.to_nat (cursor_y e - 1))) with (Z.to_nat (cursor_y e)) by lia.
      now apply drop_S.
    - apply length_take_le. apply lookup_lt_Some in Hp. lia. }
  destruct Hsplit as (above & below & Hsplit & Hlen).
  unfold delete_char.
  destruct (Z.ltb_spec 0 (cursor_x e)) as [Hpos|_]; [lia|].
  destruct (Z.ltb_spec 0 (cursor_y e)) as [_|Hn]; [|lia].
  rewrite getitem_in_range with (x := previous) by (lia || exact Hp).
  res_simpl. rewrite Hcur. res_simpl.
  rewrite setitem_in_range by lia. res_simpl.
  rewrite delitem_in_range by (unfold len in *; rewrite length_insert; lia).
  res_simpl.
  eexists _, above, previous, current, below. split; [reflexivity|].
  simpl. repeat split; try assumption.
  assert (Hins : <[Z.to_nat (cursor_y e - 1) := previous +:+ current]> (lines e)
                 = (above ++ [previous +:+ current]) ++ current :: below).
  { rewrite Hsplit, <- Hlen.
    replace (length above) with (length above + 0)%nat at 1 by lia.
    rewrite insert_app_r. simpl. now rewrite <- app_assoc. }
  rewrite Hins.
  replace (Z.to_nat (cursor_y e))
    with (length (above ++ [previous +:+ current]))
    by (rewrite length_app; simpl; lia).
  rewrite delete_middle. now rewrite <- app_assoc.
Qed.

Lemma delete_char_joins_lines_witness :
  exists e' above previous current below,
    delete_char 7 (set_cursor_y 1 (set_lines ["one"; "abde"; "two"]
                                     (new_editor true 200))) = Ok e' /\
    ["one"; "abde"; "two"] = above ++ previous :: current :: below /\
    length above = Z.to_nat (1 - 1) /\
    lines e' = above ++ (previous +:+ current) :: below /\
    cursor_y e' = 1 - 1 /\ cursor_x e' = slen previous /\
    modified e' = true /\ suggestion_state e' = Empty.
Proof.
  apply (delete_char_joins_lines 7
           (set_cursor_y 1 (set_lines ["one"; "abde"; "two"]
                              (new_editor true 200)))).
  - split; [unfold len; simpl; lia|].
    exists "abde". split; [reflexivity | unfold slen; simpl; lia].
  - reflexivity.
  - simpl. lia.
Defined.

(** X6. Backspace undoes Enter: after [insert_newline] then [delete_char] the
    lines and the cursor are what they were. *)
Theorem newline_then_delete_restores (now now' : Q) (e : TextEditor) :
  cursor_inv e ->
  exists e1 e2,
    insert_newline now e = Ok e1 /\
    delete_char now' e1 = Ok e2 /\
    lines e2 = lines e /\ cursor_y e2 = cursor_y e /\
    cursor_x e2 = cursor_x e.
Proof.
  intros Hinv.
  destruct (insert_newline_effect now e Hinv)
    as (e1 & above & before & after & below & Hnl & Hsplit & Hlen & Hb
        & Hl1 & Hy1 & Hx1 & _).
  assert (Hinv1 : cursor_inv e1).
  { destruct Hinv as [Hy _]. split.
    - unfold len in *. rewrite Hl1, Hy1. rewrite Hsplit in Hy.
      rewrite !length_app in *. simpl in *. lia.
    - exists after. split.
      + rewrite Hl1, Hy1.
        replace (Z.to_nat (cursor_y e + 1)) with (length above + 1)%nat by lia.
        replace (above ++ before :: after :: below)
          with ((above ++ [before]) ++ after :: below)
          by (now rewrite <- app_assoc).
        rewrite lookup_app_r by (rewrite length_app; simpl; lia).
        rewrite length_app. simpl.
        now replace (length above + 1 - (length above + 1))%nat with 0%nat by lia.
      + pose proof (slen_nonneg after). lia. }
  destruct Hinv as [Hy _].
  destruct (delete_char_joins_lines now' e1 Hinv1 Hx1 ltac:(lia))
    as (e2 & above' & previous & current & below' & Hdel & Hsplit' & Hlen'
        & Hl2 & Hy2 & Hx2 & _).
  exists e1, e2. split; [exact Hnl|]. split; [exact Hdel|].
  (* the two decompositions of [lines e1] coincide *)
  assert (Hlen_eq : length above' = length above) by lia.
  rewrite Hl1 in Hsplit'.
  assert (Habove : above = above').
  { apply (f_equal (take (length above))) in Hsplit'.
    rewrite take_app_length in Hsplit'.
    rewrite <- Hlen_eq, take_app_length in Hsplit'. exact Hsplit'. }
  subst above'. apply app_inv_head in Hsplit'.
  injection Hsplit' as <- <- <-.
  rewrite Hl2, Hsplit. repeat split; lia.
Qed.

Lemma newline_then_delete_restores_witness :
  exists e1 e2,
    insert_newline 7 (set_cursor_y 1 (set_cursor_x 2
       (set_lines ["one"; "abde"; "two"] (new_editor true 200)))) = Ok e1 /\
    delete_char 8 e1 = Ok e2 /\
    lines e2 = ["one"; "abde"; "two"] /\ cursor_y e2 = 1 /\ cursor_x e2 = 2.
Proof.
  apply (newline_then_delete_restores 7 8
           (set_cursor_y 1 (set_cursor_x 2
              (set_lines ["one"; "abde"; "two"] (new_editor true 200))))).
  split; [unfold len; simpl; lia|].
  exists "abde". split; [reflexivity | unfold slen; simpl; lia].
Defined.

End BufferEdits.

(* ===================================================================== *)
(** ** Accepting and retyping a suggestion *)
(* ===================================================================== *)

Section AcceptAndType.

Local Arguments String.eqb : simpl never.

Lemma slice_from_nat (s : string) (k : nat) :
  slice_from s (Z.of_nat k) = str_drop k s.
Proof.
  unfold slice_from, adjust.
  destruct (Z.ltb_spec (Z.of_nat k) 0); [lia|].
  destruct (Nat.le_gt_cases k (String.length s)) as [Hle|Hgt].
  - f_equal. lia.
  - replace (Z.to_nat (Z.min (Z.of_nat k) (Z.of_nat (String.length s))))
      with (String.length s) by lia.
    assert (Hall : forall n t, (String.length t <= n)%nat -> str_drop n t = EmptyString).
    { clear. induction n as [|n IH]; intros [|a t] H; simpl in *;
        try reflexivity; try lia. apply IH. lia. }
    rewrite !Hall by lia. reflexivity.
Qed.

Lemma str_drop_head (s rest : string) (k : nat) (c : ascii) :
  str_drop k s = String c rest ->
  String.get k s = Some c /\ str_drop (S k) s = rest
  /\ (k < String.length s)%nat.
Proof.
  revert s. induction k as [|k IH]; intros [|a s] H; try discriminate.
  - simpl in H. injection H as -> ->. simpl. repeat split. lia.
  - change (str_drop k s = String c rest) in H.
    destruct (IH s H) as (H1 & H2 & H3).
    change (String.get k s = Some c /\ str_drop (S k) s = rest
            /\ (S k < S (String.length s))%nat).
    repeat split; try assumption. lia.
Qed.

(** X7. What accept does in state [Active{text, k}]: the part of the
    suggestion that was not retyped, [text[k:]], goes in at the cursor and
    the cursor moves behind it; nothing is inserted when the suggestion is
    exhausted; the state becomes [Empty] either way. *)
Theorem accept_suggestion_effect (e : TextEditor) (text : string) (k : nat) :
  cursor_inv e ->
  suggestion_state e = Active text k ->
  exists e' before after,
    accept_suggestion e = Ok e' /\
    lines e !! Z.to_nat (cursor_y e) = Some (before +:+ after) /\
    slen before = cursor_x e /\
    lines e'
    = <[Z.to_nat (cursor_y e) := before +:+ str_drop k text +:+ after]> (lines e) /\
    cursor_y e' = cursor_y e /\
    cursor_x e' = cursor_x e + slen (str_drop k text) /\
    modified e' = (if (k <? String.length text)%nat then true else modified e) /\
    suggestion_state e' = Empty.
Proof.
  intros Hinv Hst.
  apply suggestion_state_Active in Hst as (Ht & Htext & Hk).
  destruct (line_at_cursor e Hinv) as (before & after & Hl & Hcur & Hb & Hto & Hfrom).
  destruct Hinv as [Hy _].
  unfold accept_suggestion. rewrite Ht. simpl.
  rewrite slice_from_nat, Htext, Hk.
  destruct (str_drop k text) as [|c rest] eqn:Hdrop; simpl.
  - (* exhausted: nothing to insert *)
    eexists _, before, after. split; [reflexivity|]. simpl.
    assert (Hge : (String.length text <= k)%nat).
    { pose proof (length_str_drop k text) as Hlen. rewrite Hdrop in Hlen.
      simpl in Hlen. lia. }
    destruct (Nat.ltb_spec k (String.length text)); [lia|].
    repeat split; try assumption; try (unfold slen; simpl; lia).
    symmetry. apply list_insert_id. exact Hl.
  - rewrite Hcur. res_simpl. rewrite Hto, Hfrom.
    rewrite setitem_in_range by exact Hy. res_simpl.
    eexists _, before, after. split; [reflexivity|]. simpl.
    apply str_drop_head in Hdrop as (_ & _ & Hlt).
    destruct (Nat.ltb_spec k (String.length text)); [|lia].
    repeat split; assumption.
Qed.

Lemma accept_suggestion_effect_witness :
  exists e' before after,
    accept_suggestion
      (set_suggestion_match_pos 2
         (set_suggestion "world"
            (set_cursor_x 3 (set_lines ["hi wo!"] (new_editor true 200)))))
    = Ok e' /\
    [("hi wo!" : string)] !! Z.to_nat 0 = Some (before +:+ after) /\
    slen before = 3 /\
    lines e'
    = <[Z.to_nat 0 := before +:+ str_drop 2 "world" +:+ after]> ["hi wo!"] /\
    cursor_y e' = 0 /\
    cursor_x e' = 3 + slen (str_drop 2 "world") /\
    modified e' = (if (2 <? String.length "world")%nat then true else false) /\
    suggestion_state e' = Empty.
Proof.
  apply (accept_suggestion_effect
           (set_suggestion_match_pos 2
              (set_suggestion "world"
                 (set_cursor_x 3 (set_lines ["hi wo!"] (new_editor true 200)))))
           "world" 2).
  - split; [unfold len; simpl; lia|].
    exists "hi wo!". split; [reflexivity | unfold slen; simpl; lia].
  - reflexivity.
Defined.

Lemma check_match_advance (e : TextEditor) (c : ascii) :
  String.get (suggestion_match_pos e) (suggestion e) = Some c ->
  check_suggestion_match (String c EmptyString) e
  = Ok (set_suggestion_match_pos (suggestion_match_pos e + 1) e).
Proof.
  intros Hget. unfold check_suggestion_match.
  assert (Hlt : (suggestion_match_pos e < String.length (suggestion e))%nat).
  { destruct (Nat.lt_ge_cases (suggestion_match_pos e)
                (String.length (suggestion e))) as [H|H]; [exact H|].
    rewrite get_beyond in Hget by exact H. discriminate. }
  assert (Ht : truthy (suggestion e) = true).
  { destruct (suggestion e); [simpl in Hlt; lia | reflexivity]. }
  rewrite Ht. simpl.
  destruct (Z.ltb_spec (Z.of_nat (suggestion_match_pos e)) (slen (suggestion e)));
    [|unfold slen in *; lia].
  destruct (str_item_in_range _ _ Hlt) as (c' & Hget' & ->).
  rewrite Hget in Hget'. injection Hget' as <-.
  res_simpl. now rewrite String.eqb_refl.
Qed.

(** Typing the next characters [p] of the pending suggestion: they go in at
    the cursor, and the match position advances by their number. *)
Lemma type_string_matching (now : Q) (p : string) :
  forall (e : TextEditor),
    cursor_inv e ->
    str_take (String.length p)
      (str_drop (suggestion_match_pos e) (suggestion e)) = p ->
    exists e1 before after,
      type_string now p e = Ok e1 /\
      lines e !! Z.to_nat (cursor_y e) = Some (before +:+ after) /\
      slen before = cursor_x e /\
      lines e1 = <[Z.to_nat (cursor_y e) := before +:+ p +:+ after]> (lines e) /\
      cursor_y e1 = cursor_y e /\
      cursor_x e1 = cursor_x e + slen p /\
      suggestion e1 = suggestion e /\
      suggestion_match_pos e1 = (suggestion_match_pos e + String.length p)%nat.
Proof.
  induction p as [|c p IH]; intros e Hinv Hnext.
  - destruct (line_at_cursor e Hinv) as (before & after & Hl & _ & Hb & _).
    exists e, before, after. split; [reflexivity|].
    unfold slen at 2. simpl. repeat split; try assumption; try lia.
    symmetry. apply list_insert_id. exact Hl.
  - simpl in Hnext.
    destruct (str_drop (suggestion_match_pos e) (suggestion e))
      as [|c' rest] eqn:Hdrop; [discriminate|].
    injection Hnext as -> Hrest.
    apply str_drop_head in Hdrop as (Hget & Hdrop' & _).
    destruct (line_at_cursor e Hinv)
      as (before & after & Hl & Hcur & Hb & Hto & Hfrom).
    pose proof Hinv as [Hy _].
    (* the first character *)
    assert (Hins : insert_char now (String c EmptyString) e
              = Ok (set_last_input_time now
                      (set_suggestion_match_pos (suggestion_match_pos e + 1)
                         (set_modified true
                            (set_cursor_x (cursor_x e + 1)
                               (set_lines
                                  (<[Z.to_nat (cursor_y e)
                                     := before +:+ String c after]> (lines e))
                                  e)))))).
    { unfold insert_char. rewrite Hcur. res_simpl. rewrite Hto, Hfrom.
      rewrite setitem_in_range by exact Hy. res_simpl.
      rewrite check_match_advance by exact Hget. reflexivity. }
    set (e1 := set_last_input_time now _) in Hins.
    assert (Hlook1 : lines e1 !! Z.to_nat (cursor_y e1)
                     = Some ((before +:+ String c EmptyString) +:+ after)).
    { simpl. rewrite append_assoc.
      apply list_lookup_insert_eq. unfold len in Hy. lia. }
    assert (Hinv1 : cursor_inv e1).
    { split.
      - simpl. unfold len in *. rewrite length_insert. exact Hy.
      - eexists. split; [exact Hlook1|]. simpl.
        rewrite !slen_append. unfold slen at 2. simpl.
        pose proof (slen_nonneg after). pose proof (slen_nonneg before).
        lia. }
    destruct (IH e1 Hinv1) as (e2 & before1 & after1 & Hty & Hl1 & Hb1 & Hl2
                               & Hy2 & Hx2 & Hs2 & Hk2).
    { simpl. rewrite Nat.add_1_r, Hdrop'. exact Hrest. }
    (* the decomposition of the new current line is the expected one *)
    assert (Hba : before1 = before +:+ String c EmptyString /\ after1 = after).
    { rewrite Hlook1 in Hl1. injection Hl1 as Heq.
      assert (Hlen : slen before1 = slen (before +:+ String c EmptyString)).
      { rewrite Hb1, slen_append. simpl. unfold slen at 2. simpl. lia. }
      split.
      - rewrite <- (slice_to_append before1 after1), <- Heq, Hlen.
        now rewrite slice_to_append.
      - rewrite <- (slice_from_append before1 after1), <- Heq, Hlen.
        now rewrite slice_from_append. }
    destruct Hba as [-> ->].
    exists e2, before, after. simpl. rewrite Hins. res_simpl.
    split; [exact Hty|]. split; [exact Hl|]. split; [exact Hb|].
    simpl in *. rewrite Hl2, Hy2, Hx2, Hs2, Hk2.
    rewrite list_insert_insert_eq.
    repeat split; try lia.
    + rewrite (append_assoc before (String c EmptyString) (p +:+ after)).
      reflexivity.
    + unfold slen. simpl. lia.
Qed.

(** X8. Retyping first and accepting then gives what accepting at once gives:
    from [Active{p ++ r, 0}], typing the characters of [p] and then accepting
    leaves the same lines and the same cursor as accepting right away. *)
Theorem type_then_accept (now : Q) (p r : string) (e : TextEditor) :
  cursor_inv e ->
  suggestion_state e = Active (p +:+ r) 0 ->
  exists e1 e2 e3,
    type_string now p e = Ok e1 /\
    suggestion_state e1 = Active (p +:+ r) (String.length p) /\
    accept_suggestion e1 = Ok e2 /\
    accept_suggestion e = Ok e3 /\
    lines e2 = lines e3 /\ cursor_y e2 = cursor_y e3 /\
    cursor_x e2 = cursor_x e3.
Proof.
  intros Hinv Hst.
  pose proof (suggestion_state_Active _ _ _ Hst) as (Ht & Htext & Hk).
  destruct (type_string_matching now p e Hinv)
    as (e1 & before & after & Hty & Hl & Hb & Hl1 & Hy1 & Hx1 & Hs1 & Hk1).
  { rewrite Hk, Htext. simpl. apply str_take_append. }
  assert (Hst1 : suggestion_state e1 = Active (p +:+ r) (String.length p)).
  { unfold suggestion_state. rewrite Hs1, Ht, Hk1, Htext, Hk. reflexivity. }
  assert (Hinv1 : cursor_inv e1).
  { destruct Hinv as [Hy _]. split.
    - rewrite Hy1, Hl1. unfold len in *. now rewrite length_insert.
    - eexists. split.
      + rewrite Hy1, Hl1. apply list_lookup_insert_eq. unfold len in Hy. lia.
      + rewrite Hx1, !slen_append.
        pose proof (slen_nonneg after). pose proof (slen_nonneg p).
        pose proof (slen_nonneg before). lia. }
  destruct (accept_suggestion_effect e1 _ _ Hinv1 Hst1)
    as (e2 & b1 & a1 & Hacc1 & Hlk1 & Hsb1 & Hl2 & Hy2 & Hx2 & _).
  destruct (accept_suggestion_effect e _ _ Hinv Hst)
    as (e3 & b0 & a0 & Hacc & Hlk0 & Hsb0 & Hl3 & Hy3 & Hx3 & _).
  exists e1, e2, e3. repeat (split; [assumption|]).
  (* both decompositions are the ones at the cursor *)
  assert (H0 : b0 = before /\ a0 = after).
  { rewrite Hl in Hlk0. injection Hlk0 as Heq.
    assert (Hlen : slen b0 = slen before) by lia.
    split.
    - rewrite <- (slice_to_append b0 a0), <- Heq, Hlen. apply slice_to_append.
    - rewrite <- (slice_from_append b0 a0), <- Heq, Hlen.
      apply slice_from_append. }
  destruct H0 as [-> ->].
  assert (H1 : b1 = before +:+ p /\ a1 = after).
  { destruct Hinv as [Hy _].
    rewrite Hy1, Hl1, list_lookup_insert_eq in Hlk1 by (unfold len in Hy; lia).
    injection Hlk1 as Heq. rewrite <- append_assoc in Heq.
    assert (Hlen : slen b1 = slen (before +:+ p)) by (rewrite slen_append; lia).
    split.
    - rewrite <- (slice_to_append b1 a1), <- Heq, Hlen. apply slice_to_append.
    - rewrite <- (slice_from_append b1 a1), <- Heq, Hlen.
      apply slice_from_append. }
  destruct H1 as [-> ->].
  rewrite str_drop_append in Hl2, Hx2. simpl in Hl3, Hx3.
  rewrite Hl2, Hl3, Hy2, Hy3, Hx2, Hx3, Hl1, Hy1, Hx1.
  rewrite list_insert_insert_eq, !slen_append.
  repeat split; try lia.
  now rewrite !append_assoc.
Qed.

Lemma type_then_accept_witness :
  exists e1 e2 e3,
    type_string 7 " wo"
      (set_suggestion " world"
         (set_cursor_x 5 (set_lines ["hello!"] (new_editor true 200)))) = Ok e1 /\
    suggestion_state e1 = Active (" wo" +:+ "rld") (String.length " wo") /\
    accept_suggestion e1 = Ok e2 /\
    accept_suggestion
      (set_suggestion " world"
         (set_cursor_x 5 (set_lines ["hello!"] (new_editor true 200)))) = Ok e3 /\
    lines e2 = lines e3 /\ cursor_y e2 = cursor_y e3 /\
    cursor_x e2 = cursor_x e3.
Proof.
  apply (type_then_accept 7 " wo" "rld"
           (set_suggestion " world"
              (set_cursor_x 5 (set_lines ["hello!"] (new_editor true 200))))).
  - split; [unfold len; simpl; lia|].
    exists "hello!". split; [reflexivity | unfold slen; simpl; lia].
  - reflexivity.
Defined.

End AcceptAndType.

(* ===================================================================== *)
(** ** Cursor movement *)
(* ===================================================================== *)

Section CursorMovement.

Lemma get_current_line_at (e : TextEditor) (line : string) :
  0 <= cursor_y e ->
  lines e !! Z.to_nat (cursor_y e) = Some line ->
  get_current_line e = Ok line.
Proof.
  intros Hy Hl. unfold get_current_line.
  pose proof (lookup_lt_Some _ _ _ Hl) as Hlt.
  destruct (Z.ltb_spec (cursor_y e) (len (lines e))); [|unfold len in *; lia].
  now apply getitem_in_range.
Qed.

(** X9. What [move_cursor] does: the row is clamped into the buffer, the column
    is first cut to the new line when the row changes and then, for a
    horizontal move, clamped into that line (no wrap to a neighbouring
    line); lines, [modified] and the edit time stay; the suggestion is
    dropped unless the move is a pure move to the right. *)
Theorem move_cursor_effect (dy dx : Z) (e : TextEditor) :
  cursor_inv e ->
  exists e' line,
    move_cursor dy dx e = Ok e' /\ cursor_inv e' /\
    lines e' = lines e /\ modified e' = modified e /\
    last_input_time e' = last_input_time e /\
    cursor_y e' = Z.max 0 (Z.min (len (lines e) - 1) (cursor_y e + dy)) /\
    lines e !! Z.to_nat (cursor_y e') = Some line /\
    cursor_x e'
    = (let x1 := if cursor_y e' =? cursor_y e then cursor_x e
                 else Z.min (cursor_x e) (slen line) in
       if dx =? 0 then x1 else Z.max 0 (Z.min (slen line) (x1 + dx))) /\
    suggestion e'
    = (if negb (dy =? 0) || (dx <? 0) then EmptyString else suggestion e).
Proof.
  intros Hinv.
  set (e0 := if negb (dy =? 0) || (dx <? 0) then clear_suggestion e else e).
  assert (H0 : lines e0 = lines e /\ cursor_y e0 = cursor_y e /\
               cursor_x e0 = cursor_x e /\ modified e0 = modified e /\
               last_input_time e0 = last_input_time e /\
               suggestion e0 = (if negb (dy =? 0) || (dx <? 0)
                                then EmptyString else suggestion e)).
  { subst e0. destruct (negb (dy =? 0) || (dx <? 0)); simpl; tauto. }
  destruct H0 as (Hl0 & Hy0 & Hx0 & Hm0 & Ht0 & Hs0).
  unfold move_cursor. cbv zeta. fold e0.
  rewrite <- Hl0, <- Hy0, <- Hx0, <- Hm0, <- Ht0, <- Hs0.
  assert (Hinv0 : cursor_inv e0).
  { unfold cursor_inv. rewrite Hl0, Hy0, Hx0. exact Hinv. }
  clearbody e0. clear e Hinv Hl0 Hy0 Hx0 Hm0 Ht0 Hs0.
  set (new_y := Z.max 0 (Z.min (len (lines e0) - 1) (cursor_y e0 + dy))).
  assert (Hny : 0 <= new_y < len (lines e0)).
  { destruct Hinv0 as [Hy _]. subst new_y. lia. }
  destruct (lookup_lt_is_Some_2 (lines e0) (Z.to_nat new_y)) as (line & Hline);
    [unfold len in Hny; lia|].
  destruct Hinv0 as [Hy (line0 & Hline0 & Hx)].
  pose proof (slen_nonneg line) as Hnn.
  destruct (Z.eqb_spec new_y (cursor_y e0)) as [Heq|Hne]; simpl.
  - (* the row stays *)
    res_simpl.
    assert (Hcur : get_current_line e0 = Ok line).
    { unfold get_current_line.
      destruct (Z.ltb_spec (cursor_y e0) (len (lines e0))); [|lia].
      apply getitem_in_range; [lia | now rewrite <- Heq]. }
    assert (line0 = line) by (rewrite <- Heq in Hline0; congruence). subst line0.
    destruct (Z.eqb_spec dx 0) as [Hdx|Hdx]; simpl.
    + exists e0, line. rewrite Z.eqb_refl.
      split; [reflexivity|].
      split; [split; [exact Hy | exists line; split; assumption]|].
      repeat split; try assumption; try lia.
    + rewrite Hcur. res_simpl. eexists _, line. split; [reflexivity|].
      split; [split; [exact Hy | exists line; split; [exact Hline0 | simpl; lia]]|].
      simpl. rewrite Z.eqb_refl.
      repeat split; try assumption; try lia.
  - (* the row changes *)
    rewrite (get_current_line_at (set_cursor_y new_y e0) line)
      by (simpl; lia || exact Hline).
    res_simpl.
    destruct (Z.eqb_spec dx 0) as [Hdx|Hdx]; simpl.
    + eexists _, line. split; [reflexivity|].
      split; [split; [exact Hny | exists line; split; [exact Hline | simpl; lia]]|].
      simpl.
      destruct (Z.eqb_spec new_y (cursor_y e0)); [contradiction|].
      repeat split; try assumption; try lia.
    + match goal with |- context [get_current_line ?e1] =>
        rewrite (get_current_line_at e1 line) by (simpl; lia || exact Hline)
      end.
      res_simpl. eexists _, line. split; [reflexivity|].
      split; [split; [exact Hny | exists line; split; [exact Hline | simpl; lia]]|].
      simpl.
      destruct (Z.eqb_spec new_y (cursor_y e0)); [contradiction|].
      repeat split; try assumption; try lia.
Qed.

Lemma move_cursor_effect_witness :
  exists e' line,
    move_cursor 1 (-1)
      (set_cursor_x 6 (set_lines ["a long line"; "ab"] (new_editor true 200)))
    = Ok e' /\
    cursor_inv e' /\
    lines e' = ["a long line"; "ab"] /\ modified e' = false /\
    last_input_time e' = 0%Q /\
    cursor_y e' = Z.max 0 (Z.min (len ["a long line"; ("ab" : string)] - 1) (0 + 1)) /\
    ["a long line"; ("ab" : string)] !! Z.to_nat (cursor_y e') = Some line /\
    cursor_x e'
    = (let x1 := if cursor_y e' =? 0 then 6 else Z.min 6 (slen line) in
       if -1 =? 0 then x1 else Z.max 0 (Z.min (slen line) (x1 + -1))) /\
    suggestion e' = EmptyString.
Proof.
  apply (move_cursor_effect 1 (-1)
           (set_cursor_x 6 (set_lines ["a long line"; "ab"]
                              (new_editor true 200)))).
  split; [unfold len; simpl; lia|].
  exists "a long line". split; [reflexivity | unfold slen; simpl; lia].
Defined.

End CursorMovement.

(* ===================================================================== *)
(** ** The input loop *)
(* ===================================================================== *)

Section InputLoop.

Local Arguments String.eqb : simpl never.

Lemma cursor_inv_ext (e e' : TextEditor) :
  lines e' = lines e -> cursor_y e' = cursor_y e -> cursor_x e' = cursor_x e ->
  cursor_inv e -> cursor_inv e'.
Proof. unfold cursor_inv. intros -> -> ->. tauto. Qed.

Lemma origin_clear_ext (e e' : TextEditor) :
  cursor_y e' = cursor_y e -> cursor_x e' = cursor_x e ->
  suggestion e' = suggestion e \/ suggestion e' = EmptyString ->
  origin_clear e -> origin_clear e'.
Proof. unfold origin_clear. intros -> -> [-> | ->]; tauto. Qed.

(** [accept_suggestion] under the cursor invariant: it never raises, keeps
    the invariant and leaves no suggestion. *)
Lemma accept_suggestion_keeps (e : TextEditor) :
  cursor_inv e ->
  exists e',
    accept_suggestion e = Ok e' /\ cursor_inv e' /\
    suggestion e' = EmptyString.
Proof.
  intros Hinv.
  destruct (get_current_line_inv e Hinv) as (line & Hl & Hcur & Hx).
  unfold accept_suggestion.
  destruct (truthy (suggestion e)) eqn:Ht; simpl.
  2:{ exists e. split; [reflexivity|]. split; [exact Hinv|].
      now apply truthy_false_iff. }
  destruct (truthy (slice_from (suggestion e)
                      (Z.of_nat (suggestion_match_pos e)))) eqn:Hr; simpl.
  2:{ eexists; split; [reflexivity|]. split; [exact Hinv | reflexivity]. }
  destruct Hinv as [Hy _].
  rewrite Hcur. res_simpl.
  rewrite setitem_in_range by exact Hy. res_simpl.
  eexists; split; [reflexivity|]. split; [|reflexivity].
  unfold cursor_inv, len; simpl. rewrite length_insert.
  split; [exact Hy|].
  eexists; split.
  - apply list_lookup_insert_eq. unfold len in Hy. lia.
  - rewrite !slen_append, (slen_slice_to line), (slen_slice_from line) by lia.
    pose proof (slen_nonneg (slice_from (suggestion e)
                               (Z.of_nat (suggestion_match_pos e)))).
    lia.
Qed.

(** With the cursor at the very start of the buffer the context is empty,
    and no request is made. *)
Lemma request_at_origin (env : Env) (e : TextEditor) :
  cursor_inv e -> cursor_y e = 0 -> cursor_x e = 0 ->
  request_ai_completion env e = Ok (e, []).
Proof.
  intros Hinv Hy Hx.
  destruct (get_current_line_inv e Hinv) as (line & _ & Hcur & _).
  unfold request_ai_completion.
  destruct (negb (ai_enabled e) || negb (is_available (ai_completer e)));
    [reflexivity|].
  destruct (requesting_completion e); [reflexivity|].
  unfold get_context_before_cursor. rewrite Hcur, Hy, Hx. res_simpl.
  unfold slice_to. rewrite adjust_in_range by lia. destruct line; reflexivity.
Qed.

Lemma idle_keeps (env : Env) (e : TextEditor) :
  cursor_inv e -> origin_clear e ->
  exists e' out, idle env e = Ok (e', out) /\ cursor_inv e' /\ origin_clear e'.
Proof.
  intros Hinv Hclr. rewrite idle_spec.
  destruct (idle_requests env e); [|now exists e, []].
  destruct (Z.eq_dec (cursor_y e) 0) as [Hy|Hy];
    [destruct (Z.eq_dec (cursor_x e) 0) as [Hx|Hx]|].
  - rewrite request_at_origin by assumption. now exists e, [].
  - destruct (request_ai_completion_spec env e Hinv)
      as (e' & out & -> & Hl & Hy' & Hx' & _).
    exists e', out. split; [reflexivity|].
    split; [now apply (cursor_inv_ext e)|].
    intros _ H. congruence.
  - destruct (request_ai_completion_spec env e Hinv)
      as (e' & out & -> & Hl & Hy' & Hx' & _).
    exists e', out. split; [reflexivity|].
    split; [now apply (cursor_inv_ext e)|].
    intros H _. congruence.
Qed.

Lemma save_file_frame (env : Env) (name : option string) (e : TextEditor) :
  lines (save_file env name e).1 = lines e /\
  cursor_y (save_file env name e).1 = cursor_y e /\
  cursor_x (save_file env name e).1 = cursor_x e /\
  suggestion (save_file env name e).1 = suggestion e /\
  ai_enabled (save_file env name e).1 = ai_enabled e.
Proof.
  unfold save_file.
  destruct (truthy_opt name); simpl;
    repeat match goal with
           | |- context [match ?x with _ => _ end] => destruct x; simpl
           end; tauto.
Qed.

Lemma quiet_keeps (r : res TextEditor) :
  (exists e', r = Ok e' /\ cursor_inv e' /\ origin_clear e') ->
  exists continue e' out,
    quiet r = Ok (continue, e', out) /\ cursor_inv e' /\ origin_clear e'.
Proof. intros (e' & -> & H). now exists true, e', []. Qed.

(** Every input event, on an editor with a valid cursor and no suggestion
    pending at the very start of the buffer, returns without raising and
    leads to such an editor again. *)
Lemma handle_input_keeps (env : Env) (key : Z) (e : TextEditor) :
  cursor_inv e -> origin_clear e ->
  exists continue e' out,
    handle_input env key e = Ok (continue, e', out) /\
    cursor_inv e' /\ origin_clear e'.
Proof.
  intros Hinv Hclr. unfold handle_input.
  destruct (key =? -1).
  { destruct (idle_keeps env e Hinv Hclr) as (e' & out & -> & H).
    now exists true, e', out. }
  destruct (key =? 24).
  { destruct (modified e); eexists _, _, _; (split; [reflexivity|]);
      split; assumption. }
  destruct (key =? 19).
  { destruct (save_file_frame env None e) as (Hl & Hy & Hx & Hs & _).
    eexists _, _, _. split; [reflexivity|]. split.
    - now apply (cursor_inv_ext e).
    - apply (origin_clear_ext e); auto. }
  destruct (key =? 15).
  { eexists _, _, _. split; [reflexivity|]. split; assumption. }
  destruct (key =? 7).
  { eexists _, _, _. split; [reflexivity|]. split.
    - destruct (negb (ai_enabled e)); exact Hinv.
    - apply (origin_clear_ext e); destruct (negb (ai_enabled e)); simpl; auto. }
  destruct ((key =? 9) || (key =? KEY_RIGHT)).
  { destruct (truthy (suggestion e)) eqn:Ht.
    - apply quiet_keeps.
      destruct (accept_suggestion_keeps e Hinv) as (e' & -> & Hinv' & Hs).
      exists e'. split; [reflexivity|]. split; [exact Hinv'|].
      intros _ _. exact Hs.
    - destruct (key =? KEY_RIGHT).
      + apply quiet_keeps.
        destruct (move_cursor_effect 0 1 e Hinv)
          as (e' & line & -> & Hinv' & _ & _ & _ & _ & _ & _ & Hs).
        exists e'. split; [reflexivity|]. split; [exact Hinv'|].
        intros _ _. rewrite Hs. simpl. now apply truthy_false_iff.
      + eexists _, _, _. split; [reflexivity|]. split; assumption. }
  destruct (key =? KEY_UP).
  { apply quiet_keeps.
    destruct (move_cursor_effect (-1) 0 e Hinv)
      as (e' & line & -> & Hinv' & _ & _ & _ & _ & _ & _ & Hs).
    exists e'. split; [reflexivity|]. split; [exact Hinv'|].
    intros _ _. exact Hs. }
  destruct (key =? KEY_DOWN).
  { apply quiet_keeps.
    destruct (move_cursor_effect 1 0 e Hinv)
      as (e' & line & -> & Hinv' & _ & _ & _ & _ & _ & _ & Hs).
    exists e'. split; [reflexivity|]. split; [exact Hinv'|].
    intros _ _. exact Hs. }
  destruct (key =? KEY_LEFT).
  { apply quiet_keeps.
    destruct (move_cursor_effect 0 (-1) e Hinv)
      as (e' & line & -> & Hinv' & _ & _ & _ & _ & _ & _ & Hs).
    exists e'. split; [reflexivity|]. split; [exact Hinv'|].
    intros _ _. exact Hs. }
  destruct ((key =? KEY_BACKSPACE) || (key =? 127) || (key =? 8)).
  { apply quiet_keeps.
    destruct (delete_char_spec (clock env) e Hinv)
      as (e' & -> & Hinv' & Hdel & Hnop).
    exists e'. split; [reflexivity|]. split; [exact Hinv'|].
    destruct Hinv as [Hy (line & _ & Hx)].
    destruct (Z.eq_dec (cursor_x e) 0) as [Hx0|Hx0];
      [destruct (Z.eq_dec (cursor_y e) 0) as [Hy0|Hy0]|].
    - now rewrite (Hnop Hx0 Hy0).
    - intros _ _. apply Hdel. lia.
    - intros _ _. apply Hdel. lia. }
  destruct ((key =? KEY_ENTER) || (key =? 10) || (key =? 13)).
  { apply quiet_keeps.
    destruct (insert_newline_effect (clock env) e Hinv)
      as (e' & above & before & after & below & Hnl & _ & _ & _ & _ & _ & _
          & _ & Hs).
    destruct (insert_newline_inv (clock env) e Hinv) as (e'' & Hnl' & Hinv').
    rewrite Hnl in Hnl'. injection Hnl' as <-.
    exists e'. split; [exact Hnl|]. split; [exact Hinv'|].
    intros _ _. now apply suggestion_state_Empty. }
  destruct ((32 <=? key) && (key <=? 126)).
  { apply quiet_keeps. unfold chr.
    destruct (insert_char_effect (clock env) (ascii_of_N (Z.to_N key)) e Hinv)
      as (e' & before & after & Hins & _ & _ & _ & _ & Hx' & _).
    destruct (insert_char_inv (clock env) (ascii_of_N (Z.to_N key)) e Hinv)
      as (e'' & Hins' & Hinv').
    rewrite Hins in Hins'. injection Hins' as <-.
    exists e'. split; [exact Hins|]. split; [exact Hinv'|].
    destruct Hinv as [_ (line & _ & Hx)].
    intros _ H. lia. }
  eexists _, _, _. split; [reflexivity|]. split; assumption.
Qed.

(** X10. The main loop never raises: from an editor with a valid cursor and no
    suggestion pending at the very start of the buffer, whatever the keys
    and whatever the clock, the file system and the provider answer, every
    call of [handle_input] returns, and the editor reached has a valid cursor
    again, and a suggestion only with text before the cursor. *)
Theorem run_inputs_keeps (inputs : list (Env * Z)) (e : TextEditor) :
  cursor_inv e -> origin_clear e ->
  exists e' out,
    run_inputs inputs e = Ok (e', out) /\ cursor_inv e' /\ origin_clear e'.
Proof.
  revert e. induction inputs as [|[env key] rest IH]; intros e Hinv Hclr; simpl.
  - now exists e, [].
  - destruct (handle_input_keeps env key e Hinv Hclr)
      as (continue & e1 & out1 & -> & Hinv1 & Hclr1).
    res_simpl. destruct continue.
    + destruct (IH e1 Hinv1 Hclr1) as (e2 & out2 & -> & H2).
      res_simpl. now eexists _, _.
    + now eexists _, _.
Qed.

Lemma new_editor_inv (configured : bool) (delay_ms : Z) :
  cursor_inv (new_editor configured delay_ms)
  /\ origin_clear (new_editor configured delay_ms).
Proof.
  split.
  - split; [unfold len; simpl; lia|].
    exists EmptyString. split; [reflexivity | unfold slen; simpl; lia].
  - intros _ _. reflexivity.
Qed.

Lemma run_inputs_keeps_witness :
  exists e' out,
    run_inputs [(failing_env 1, 97); (failing_env 2, 10);
                (answering_env 3 "b", -1); (failing_env 4, 9);
                (failing_env 5, 259); (failing_env 6, 127)]
      (new_editor true 200) = Ok (e', out) /\
    cursor_inv e' /\ origin_clear e'.
Proof.
  apply run_inputs_keeps; apply new_editor_inv.
Defined.

(** X11. In an editor that is only driven through the main loop, starting from
    a valid cursor and no suggestion, a backspace always leaves the
    suggestion state [Empty]: the loop never reaches the state with an active
    suggestion at the very start of the buffer, the one state in which
    [delete_char] would keep the suggestion. *)
Theorem backspace_after_inputs_clears
    (inputs : list (Env * Z)) (env : Env) (key : Z) (e : TextEditor) :
  cursor_inv e -> suggestion e = EmptyString ->
  key = KEY_BACKSPACE \/ key = 127 \/ key = 8 ->
  exists e1 out e2,
    run_inputs inputs e = Ok (e1, out) /\
    handle_input env key e1 = Ok (true, e2, []) /\
    suggestion_state e2 = Empty.
Proof.
  intros Hinv Hs Hkey.
  destruct (run_inputs_keeps inputs e Hinv) as (e1 & out & Hrun & Hinv1 & Hclr1).
  { intros _ _. exact Hs. }
  destruct (delete_char_spec (clock env) e1 Hinv1) as (e2 & Hdel & _ & Hc & Hnop).
  exists e1, out, e2. split; [exact Hrun|].
  rewrite (handle_input_backspace env key e1 Hkey), Hdel.
  split; [reflexivity|]. apply suggestion_state_Empty.
  destruct Hinv1 as [Hy (line & _ & Hx)].
  destruct (Z.eq_dec (cursor_x e1) 0) as [Hx0|Hx0];
    [destruct (Z.eq_dec (cursor_y e1) 0) as [Hy0|Hy0]|].
  - rewrite (Hnop Hx0 Hy0). now apply Hclr1.
  - apply Hc. lia.
  - apply Hc. lia.
Qed.

Lemma backspace_after_inputs_clears_witness :
  exists e1 out e2,
    run_inputs [(failing_env 1, 97); (answering_env 3 "bc", -1);
                (failing_env 4, 98)] (new_editor true 200) = Ok (e1, out) /\
    handle_input (failing_env 5) 127 e1 = Ok (true, e2, []) /\
    suggestion_state e2 = Empty.
Proof.
  apply backspace_after_inputs_clears.
  - apply new_editor_inv.
  - reflexivity.
  - right. left. reflexivity.
Defined.

End InputLoop.

(* ===================================================================== *)
(** ** Leaving, saving, and editing with AI switched off *)
(* ===================================================================== *)

Section KeysAndSwitches.

Local Arguments String.eqb : simpl never.

(** X12. Ctrl+X leaves the loop at once when the buffer is unmodified; with
    unsaved changes it never does, however often it is pressed (although
    the status line then reads "^X again to exit"): the loop goes on with
    the inputs that follow, the buffer and the cursor untouched. *)
Theorem ctrl_x_exits_only_unmodified (e : TextEditor) :
  (modified e = false ->
   forall env rest, run_inputs ((env, 24) :: rest) e = Ok (e, [])) /\
  (modified e = true ->
   forall inputs rest,
     Forall (fun i : Env * Z => i.2 = 24) inputs ->
     exists e',
       run_inputs (inputs ++ rest) e = run_inputs rest e' /\
       modified e' = true /\ lines e' = lines e /\
       cursor_y e' = cursor_y e /\ cursor_x e' = cursor_x e).
Proof.
  split.
  - intros Hm env rest. simpl. unfold handle_input. simpl. now rewrite Hm.
  - intros Hm inputs rest Hall. revert e Hm.
    induction Hall as [|[env key] inputs Hkey _ IH]; intros e Hm.
    + now exists e.
    + simpl in Hkey. subst key.
      destruct (IH (set_status (clock env)
                      "Save changes? (^S to save, ^X again to exit)" e) Hm)
        as (e' & Hrun & H).
      exists e'. split; [|exact H].
      change (run_inputs (((env, 24) :: inputs) ++ rest) e)
        with (r ← handle_input env 24 e;
              let '(continue, e1, out1) := r in
              if continue : bool then
                r' ← run_inputs (inputs ++ rest) e1;
                let '(e2, out2) := r' in Ok (e2, out1 ++ out2)
              else Ok (e1, out1)).
      unfold handle_input. simpl. rewrite Hm. res_simpl. rewrite Hrun.
      destruct (run_inputs rest e') as [[e2 out2]|]; reflexivity.
Qed.

Lemma ctrl_x_exits_only_unmodified_witness :
  exists e',
    run_inputs ([(failing_env 1, 24); (failing_env 2, 24)]
                ++ [(failing_env 3, 97)])
      (set_modified true (new_editor true 200))
    = run_inputs [(failing_env 3, 97)] e' /\
    modified e' = true /\ lines e' = [EmptyString] /\
    cursor_y e' = 0 /\ cursor_x e' = 0.
Proof.
  apply (proj2 (ctrl_x_exits_only_unmodified
                  (set_modified true (new_editor true 200)))).
  - reflexivity.
  - repeat constructor.
Defined.

(** X13. Ctrl+S with a filename set and a file system that takes the write:
    the joined lines are written to that file, [modified] is cleared and the
    buffer stays; a Ctrl+X that follows leaves the loop. *)
Theorem save_then_exit (env env' : Env) (e : TextEditor) (path : string) :
  filename e = Some path -> truthy path = true ->
  write_result env path (serialize (lines e)) = Done tt ->
  exists e1,
    handle_input env 19 e = Ok (true, e1, [Wrote path (serialize (lines e))]) /\
    modified e1 = false /\ lines e1 = lines e /\
    cursor_y e1 = cursor_y e /\ cursor_x e1 = cursor_x e /\
    filename e1 = Some path /\
    handle_input env' 24 e1 = Ok (false, e1, []).
Proof.
  intros Hf Ht Hw. unfold handle_input. simpl.
  unfold save_file. simpl. rewrite Hf, Ht, Hw. simpl.
  eexists. split; [reflexivity|]. simpl. repeat split; assumption.
Qed.

Lemma save_then_exit_witness :
  exists e1,
    handle_input (writable_env 5) 19
      (set_modified true
         (set_lines ["a"; "b"] (set_filename (Some "notes.txt")
                                  (new_editor true 200))))
    = Ok (true, e1, [Wrote "notes.txt" (serialize ["a"; "b"])]) /\
    modified e1 = false /\ lines e1 = ["a"; "b"] /\
    cursor_y e1 = 0 /\ cursor_x e1 = 0 /\
    filename e1 = Some "notes.txt" /\
    handle_input (failing_env 6) 24 e1 = Ok (false, e1, []).
Proof.
  apply (save_then_exit (writable_env 5) (failing_env 6)
           (set_modified true
              (set_lines ["a"; "b"] (set_filename (Some "notes.txt")
                                       (new_editor true 200))))
           "notes.txt"); reflexivity.
Defined.

Lemma check_suggestion_match_none (char : string) (e : TextEditor) :
  suggestion e = EmptyString -> check_suggestion_match char e = Ok e.
Proof. intros H. unfold check_suggestion_match. now rewrite H. Qed.

Lemma insert_char_off (now : Q) (char : string) (e e' : TextEditor) :
  insert_char now char e = Ok e' -> suggestion e = EmptyString ->
  ai_enabled e' = ai_enabled e /\ suggestion e' = EmptyString.
Proof.
  unfold insert_char. intros H Hs.
  destruct (get_current_line e) as [line|]; [|discriminate]. res_simpl.
  revert H. res_simpl.
  destruct (setitem _ _ _) as [ls|]; [|discriminate]. res_simpl.
  rewrite check_suggestion_match_none by exact Hs. res_simpl.
  intros [= <-]. simpl. tauto.
Qed.

Lemma delete_char_off (now : Q) (e e' : TextEditor) :
  delete_char now e = Ok e' -> suggestion e = EmptyString ->
  ai_enabled e' = ai_enabled e /\ suggestion e' = EmptyString.
Proof.
  unfold delete_char. intros H Hs. revert H.
  destruct (0 <? cursor_x e).
  - destruct (get_current_line e) as [line|]; [|discriminate]. res_simpl.
    destruct (setitem _ _ _) as [ls|]; [|discriminate]. res_simpl.
    intros [= <-]. simpl. tauto.
  - destruct (0 <? cursor_y e).
    + destruct (getitem _ _) as [previous|]; [|discriminate]. res_simpl.
      destruct (get_current_line e) as [line|]; [|discriminate]. res_simpl.
      destruct (setitem _ _ _) as [ls|]; [|discriminate]. res_simpl.
      destruct (delitem _ _) as [ls'|]; [|discriminate]. res_simpl.
      intros [= <-]. simpl. tauto.
    + intros [= <-]. tauto.
Qed.

Lemma insert_newline_off (now : Q) (e e' : TextEditor) :
  insert_newline now e = Ok e' ->
  ai_enabled e' = ai_enabled e /\ suggestion e' = EmptyString.
Proof.
  unfold insert_newline.
  destruct (get_current_line e) as [line|]; [|discriminate]. res_simpl.
  destruct (setitem _ _ _) as [ls|]; [|discriminate]. res_simpl.
  intros [= <-]. simpl. tauto.
Qed.

Lemma move_cursor_off (dy dx : Z) (e e' : TextEditor) :
  move_cursor dy dx e = Ok e' -> suggestion e = EmptyString ->
  ai_enabled e' = ai_enabled e /\ suggestion e' = EmptyString.
Proof.
  unfold move_cursor. cbv zeta. intros H Hs. revert H.
  set (e0 := if negb (dy =? 0) || (dx <? 0) then clear_suggestion e else e).
  assert (H0 : ai_enabled e0 = ai_enabled e /\ suggestion e0 = EmptyString).
  { subst e0. destruct (negb (dy =? 0) || (dx <? 0)); simpl; tauto. }
  destruct H0 as [<- Hs0]. clearbody e0.
  set (new_y := Z.max 0 _).
  assert (Hstep : forall e1 e2,
            (if negb (dx =? 0) then
               line ← get_current_line e1;
               Ok (set_cursor_x (Z.max 0 (Z.min (slen line) (cursor_x e1 + dx))) e1)
             else Ok e1) = Ok e2 ->
            ai_enabled e2 = ai_enabled e1 /\ suggestion e2 = suggestion e1).
  { intros e1 e2. destruct (negb (dx =? 0)).
    - destruct (get_current_line e1); [|discriminate]. res_simpl.
      intros [= <-]. simpl. tauto.
    - intros [= <-]. tauto. }
  destruct (negb (new_y =? cursor_y e0)).
  - destruct (get_current_line (set_cursor_y new_y e0)); [|discriminate].
    res_simpl. intros H. apply Hstep in H as [-> ->]. simpl. tauto.
  - res_simpl. intros H. apply Hstep in H as [-> ->]. tauto.
Qed.

Lemma save_file_effects (env : Env) (name : option string) (e : TextEditor) :
  Forall (fun ef => forall p, ef <> Requested p) (save_file env name e).2.
Proof.
  unfold save_file.
  destruct (truthy_opt name); simpl;
    repeat match goal with
           | |- context [match ?x with _ => _ end] => destruct x; simpl
           end; repeat constructor; discriminate.
Qed.

(** One event with AI switched off, no suggestion pending, and a key other
    than Ctrl+G. *)
Lemma handle_input_off (env : Env) (key : Z) (e e' : TextEditor)
    (continue : bool) (out : list effect) :
  handle_input env key e = Ok (continue, e', out) ->
  ai_enabled e = false -> suggestion e = EmptyString -> key <> 7 ->
  ai_enabled e' = false /\ suggestion e' = EmptyString /\
  Forall (fun ef => forall p, ef <> Requested p) out.
Proof.
  intros H Hai Hs Hkey. revert H. unfold handle_input.
  assert (Hq : forall r : res TextEditor,
            (forall e1, r = Ok e1 ->
               ai_enabled e1 = ai_enabled e /\ suggestion e1 = EmptyString) ->
            quiet r = Ok (continue, e', out) ->
            ai_enabled e' = false /\ suggestion e' = EmptyString /\
            Forall (fun ef => forall p, ef <> Requested p) out).
  { intros [e1|] Hr; [|discriminate]. res_simpl. intros [= _ <- <-].
    destruct (Hr e1 eq_refl) as [-> ->]. repeat split; auto. }
  destruct (key =? -1).
  { unfold idle. rewrite Hai. simpl. res_simpl. intros [= _ <- <-].
    repeat split; auto. }
  destruct (key =? 24).
  { destruct (modified e); intros [= _ <- <-]; repeat split; auto. }
  destruct (key =? 19).
  { intros [= _ <- <-].
    destruct (save_file_frame env None e) as (_ & _ & _ & -> & ->).
    repeat split; auto. apply save_file_effects. }
  destruct (key =? 15).
  { intros [= _ <- <-]. repeat split; auto. }
  destruct (Z.eqb_spec key 7); [contradiction|].
  destruct ((key =? 9) || (key =? KEY_RIGHT)).
  { rewrite Hs. simpl. destruct (key =? KEY_RIGHT).
    - apply Hq. intros e1 H1. now apply (move_cursor_off 0 1 e).
    - intros [= _ <- <-]. repeat split; auto. }
  destruct (key =? KEY_UP).
  { apply Hq. intros e1 H1. now apply (move_cursor_off (-1) 0 e). }
  destruct (key =? KEY_DOWN).
  { apply Hq. intros e1 H1. now apply (move_cursor_off 1 0 e). }
  destruct (key =? KEY_LEFT).
  { apply Hq. intros e1 H1. now apply (move_cursor_off 0 (-1) e). }
  destruct ((key =? KEY_BACKSPACE) || (key =? 127) || (key =? 8)).
  { apply Hq. intros e1 H1. now apply (delete_char_off (clock env) e). }
  destruct ((key =? KEY_ENTER) || (key =? 10) || (key =? 13)).
  { apply Hq. intros e1 H1. now apply (insert_newline_off (clock env) e). }
  destruct ((32 <=? key) && (key <=? 126)).
  { apply Hq. intros e1 H1. now apply (insert_char_off (clock env) (chr key) e). }
  intros [= _ <- <-]. repeat split; auto.
Qed.

(** X14. While AI is switched off and Ctrl+G is not pressed, the main loop never
    contacts the provider and no suggestion appears, whatever else is typed
    and however long the editor idles. *)
Theorem ai_off_no_requests (inputs : list (Env * Z)) (e : TextEditor) :
  cursor_inv e -> ai_enabled e = false -> suggestion e = EmptyString ->
  Forall (fun i : Env * Z => i.2 <> 7) inputs ->
  exists e' out,
    run_inputs inputs e = Ok (e', out) /\
    ai_enabled e' = false /\ suggestion e' = EmptyString /\
    Forall (fun ef => forall p, ef <> Requested p) out.
Proof.
  intros Hinv Hai Hs Hall. revert e Hinv Hai Hs.
  induction Hall as [|[env key] inputs Hkey _ IH]; intros e Hinv Hai Hs.
  - exists e, []. repeat split; auto.
  - simpl in Hkey.
    destruct (handle_input_keeps env key e Hinv) as (c & e1 & out1 & H1 & Hinv1 & _).
    { intros _ _. exact Hs. }
    destruct (handle_input_off _ _ _ _ _ _ H1 Hai Hs Hkey) as (Hai1 & Hs1 & Hout1).
    simpl. rewrite H1. res_simpl. destruct c.
    + destruct (IH e1 Hinv1 Hai1 Hs1) as (e2 & out2 & -> & Hai2 & Hs2 & Hout2).
      res_simpl. exists e2, (out1 ++ out2). repeat split; auto.
      now apply Forall_app.
    + exists e1, out1. repeat split; auto.
Qed.

Lemma ai_off_no_requests_witness :
  exists e' out,
    run_inputs [(answering_env 1 "x", 97); (answering_env 9 "x", -1);
                (writable_env 10, 19); (answering_env 20 "x", -1)]
      (set_ai_enabled false (new_editor true 200)) = Ok (e', out) /\
    ai_enabled e' = false /\ suggestion e' = EmptyString /\
    Forall (fun ef => forall p, ef <> Requested p) out.
Proof.
  apply ai_off_no_requests.
  - apply (new_editor_inv true 200).
  - reflexivity.
  - reflexivity.
  - repeat constructor; simpl; lia.
Defined.

End KeysAndSwitches.

(* ===================================================================== *)
(** ** Where a completion result is applied *)
(* ===================================================================== *)

Section Staleness.

Local Arguments String.eqb : simpl never.

Lemma check_suggestion_match_kept (char : string) (e e' : TextEditor) :
  check_suggestion_match char e = Ok e' ->
  requesting_completion e' = requesting_completion e /\
  (suggestion e' = suggestion e \/ suggestion e' = EmptyString).
Proof.
  unfold check_suggestion_match.
  destruct (negb (truthy (suggestion e))); [intros [= <-]; tauto|].
  destruct (_ <? _).
  - destruct (str_item _ _) as [c|]; [|discriminate]. res_simpl.
    destruct (String.eqb _ _); intros [= <-]; simpl; tauto.
  - intros [= <-]; simpl; tauto.
Qed.

Lemma insert_char_kept (now : Q) (char : string) (e e' : TextEditor) :
  insert_char now char e = Ok e' ->
  requesting_completion e' = requesting_completion e /\
  (suggestion e' = suggestion e \/ suggestion e' = EmptyString).
Proof.
  unfold insert_char.
  destruct (get_current_line e) as [line|]; [|discriminate]. res_simpl.
  destruct (setitem _ _ _) as [ls|]; [|discriminate]. res_simpl.
  match goal with |- context [check_suggestion_match ?c ?e0] =>
    destruct (check_suggestion_match c e0) as [e1|] eqn:Hc; [|discriminate]
  end.
  res_simpl. intros [= <-].
  apply check_suggestion_match_kept in Hc. exact Hc.
Qed.

Lemma delete_char_kept (now : Q) (e e' : TextEditor) :
  delete_char now e = Ok e' ->
  requesting_completion e' = requesting_completion e /\
  (suggestion e' = suggestion e \/ suggestion e' = EmptyString).
Proof.
  unfold delete_char.
  destruct (0 <? cursor_x e).
  - destruct (get_current_line e) as [line|]; [|discriminate]. res_simpl.
    destruct (setitem _ _ _) as [ls|]; [|discriminate]. res_simpl.
    intros [= <-]. simpl. tauto.
  - destruct (0 <? cursor_y e).
    + destruct (getitem _ _) as [previous|]; [|discriminate]. res_simpl.
      destruct (get_current_line e) as [line|]; [|discriminate]. res_simpl.
      destruct (setitem _ _ _) as [ls|]; [|discriminate]. res_simpl.
      destruct (delitem _ _) as [ls'|]; [|discriminate]. res_simpl.
      intros [= <-]. simpl. tauto.
    + intros [= <-]. tauto.
Qed.

Lemma insert_newline_kept (now : Q) (e e' : TextEditor) :
  insert_newline now e = Ok e' ->
  requesting_completion e' = requesting_completion e /\
  (suggestion e' = suggestion e \/ suggestion e' = EmptyString).
Proof.
  unfold insert_newline.
  destruct (get_current_line e) as [line|]; [|discriminate]. res_simpl.
  destruct (setitem _ _ _) as [ls|]; [|discriminate]. res_simpl.
  intros [= <-]. simpl. tauto.
Qed.

Lemma move_cursor_kept (dy dx : Z) (e e' : TextEditor) :
  move_cursor dy dx e = Ok e' ->
  requesting_completion e' = requesting_completion e /\
  (suggestion e' = suggestion e \/ suggestion e' = EmptyString).
Proof.
  unfold move_cursor. cbv zeta.
  set (e0 := if negb (dy =? 0) || (dx <? 0) then clear_suggestion e else e).
  assert (H0 : requesting_completion e0 = requesting_completion e /\
               (suggestion e0 = suggestion e \/ suggestion e0 = EmptyString)).
  { subst e0. destruct (negb (dy =? 0) || (dx <? 0)); simpl; tauto. }
  destruct H0 as [<- Hs0]. clearbody e0.
  set (new_y := Z.max 0 _).
  assert (Hstep : forall e1 e2,
            (if negb (dx =? 0) then
               line ← get_current_line e1;
               Ok (set_cursor_x (Z.max 0 (Z.min (slen line) (cursor_x e1 + dx))) e1)
             else Ok e1) = Ok e2 ->
            requesting_completion e2 = requesting_completion e1 /\
            suggestion e2 = suggestion e1).
  { intros e1 e2. destruct (negb (dx =? 0)).
    - destruct (get_current_line e1); [|discriminate]. res_simpl.
      intros [= <-]. simpl. tauto.
    - intros [= <-]. tauto. }
  destruct (negb (new_y =? cursor_y e0)).
  - destruct (get_current_line (set_cursor_y new_y e0)); [|discriminate].
    res_simpl. intros H. apply Hstep in H as [-> ->]. simpl. tauto.
  - res_simpl. intros H. apply Hstep in H as [-> ->]. tauto.
Qed.

Lemma accept_suggestion_kept (e e' : TextEditor) :
  accept_suggestion e = Ok e' ->
  requesting_completion e' = requesting_completion e /\
  (suggestion e' = suggestion e \/ suggestion e' = EmptyString).
Proof.
  unfold accept_suggestion.
  destruct (negb (truthy (suggestion e))); [intros [= <-]; tauto|].
  destruct (negb (truthy _)); [intros [= <-]; simpl; tauto|].
  destruct (get_current_line e) as [line|]; [|discriminate]. res_simpl.
  destruct (setitem _ _ _) as [ls|]; [|discriminate]. res_simpl.
  intros [= <-]. simpl. tauto.
Qed.

Lemma save_file_kept (env : Env) (name : option string) (e : TextEditor) :
  requesting_completion (save_file env name e).1 = requesting_completion e /\
  suggestion (save_file env name e).1 = suggestion e.
Proof.
  unfold save_file.
  destruct (truthy_opt name); simpl;
    repeat match goal with
           | |- context [match ?x with _ => _ end] => destruct x; simpl
           end; tauto.
Qed.

(** A key event on an editor with a valid cursor: it returns, sends nothing
    to the provider, leaves the in-flight flag alone, and keeps or drops
    the suggestion text; it never brings a new one. *)
Lemma handle_input_key (env : Env) (key : Z) (e : TextEditor) :
  cursor_inv e -> key <> -1 ->
  exists continue e' out,
    handle_input env key e = Ok (continue, e', out) /\
    requesting_completion e' = requesting_completion e /\
    (suggestion e' = suggestion e \/ suggestion e' = EmptyString) /\
    Forall (fun ef => forall p, ef <> Requested p) out.
Proof.
  intros Hinv Hkey. unfold handle_input.
  assert (Hq : forall r : res TextEditor,
            (exists e1, r = Ok e1) ->
            (forall e1, r = Ok e1 ->
               requesting_completion e1 = requesting_completion e /\
               (suggestion e1 = suggestion e \/ suggestion e1 = EmptyString)) ->
            exists continue e' out,
              quiet r = Ok (continue, e', out) /\
              requesting_completion e' = requesting_completion e /\
              (suggestion e' = suggestion e \/ suggestion e' = EmptyString) /\
              Forall (fun ef => forall p, ef <> Requested p) out).
  { intros r (e1 & ->) Hr. destruct (Hr e1 eq_refl) as [H1 H2].
    exists true, e1, []. repeat split; auto. }
  assert (Hstay : forall (continue : bool) e1,
            requesting_completion e1 = requesting_completion e ->
            suggestion e1 = suggestion e \/ suggestion e1 = EmptyString ->
            exists continue' e' out,
              Ok (continue, e1, ([] : list effect)) = Ok (continue', e', out) /\
              requesting_completion e' = requesting_completion e /\
              (suggestion e' = suggestion e \/ suggestion e' = EmptyString) /\
              Forall (fun ef => forall p, ef <> Requested p) out).
  { intros continue e1 H1 H2. exists continue, e1, []. repeat split; auto. }
  destruct (Z.eqb_spec key (-1)); [contradiction|].
  destruct (key =? 24).
  { destruct (modified e); apply Hstay; simpl; auto. }
  destruct (key =? 19).
  { destruct (save_file_kept env None e) as [H1 H2].
    eexists _, _, _. split; [reflexivity|].
    repeat split; auto. apply save_file_effects. }
  destruct (key =? 15).
  { apply Hstay; simpl; auto. }
  destruct (key =? 7).
  { apply Hstay; destruct (negb (ai_enabled e)); simpl; auto. }
  destruct ((key =? 9) || (key =? KEY_RIGHT)).
  { destruct (truthy (suggestion e)).
    - apply Hq.
      + destruct (accept_suggestion_keeps e Hinv) as (e1 & H1 & _).
        now exists e1.
      + intros e1. apply accept_suggestion_kept.
    - destruct (key =? KEY_RIGHT).
      + apply Hq.
        * destruct (move_cursor_inv 0 1 e Hinv) as (e1 & H1 & _).
          now exists e1.
        * intros e1. apply move_cursor_kept.
      + apply Hstay; auto. }
  destruct (key =? KEY_UP).
  { apply Hq.
    - destruct (move_cursor_inv (-1) 0 e Hinv) as (e1 & H1 & _). now exists e1.
    - intros e1. apply move_cursor_kept. }
  destruct (key =? KEY_DOWN).
  { apply Hq.
    - destruct (move_cursor_inv 1 0 e Hinv) as (e1 & H1 & _). now exists e1.
    - intros e1. apply move_cursor_kept. }
  destruct (key =? KEY_LEFT).
  { apply Hq.
    - destruct (move_cursor_inv 0 (-1) e Hinv) as (e1 & H1 & _). now exists e1.
    - intros e1. apply move_cursor_kept. }
  destruct ((key =? KEY_BACKSPACE) || (key =? 127) || (key =? 8)).
  { apply Hq.
    - destruct (delete_char_inv (clock env) e Hinv) as (e1 & H1 & _).
      now exists e1.
    - intros e1. apply delete_char_kept. }
  destruct ((key =? KEY_ENTER) || (key =? 10) || (key =? 13)).
  { apply Hq.
    - destruct (insert_newline_inv (clock env) e Hinv) as (e1 & H1 & _).
      now exists e1.
    - intros e1. apply insert_newline_kept. }
  destruct ((32 <=? key) && (key <=? 126)).
  { apply Hq.
    - destruct (insert_char_inv (clock env) (ascii_of_N (Z.to_N key)) e Hinv)
        as (e1 & H1 & _).
      now exists e1.
    - intros e1. apply insert_char_kept. }
  apply Hstay; auto.
Qed.

(** [get_completion] answers only through the provider: an answer means that
    the provider was sent the text. *)
Lemma get_completion_answer (env : Env) (text : string) (c : AICompleter)
    (answer : string) :
  (get_completion env text c).1.1 = Some answer ->
  client c = true /\ truthy (strip text) = true /\
  (get_completion env text c).2 = [Requested text].
Proof.
  unfold get_completion.
  destruct (client c); [|discriminate].
  destruct (truthy (strip text)); [|discriminate]. simpl.
  destruct (Qlt_bool _ _); [discriminate|].
  destruct (provider env text) as [content|]; [|discriminate].
  destruct (truthy content); [|discriminate].
  tauto.
Qed.

(** What the idle check does, in terms of what [get_completion] returns for
    the context before the cursor: a non-empty answer becomes the
    suggestion, at match position 0, when the idle conditions hold, and in
    every other case the suggestion fields stay as they are.  Buffer, cursor
    and in-flight flag are the same before and after. *)
Lemma handle_input_idle_result (env : Env) (e : TextEditor) (context : string) :
  get_context_before_cursor 500 e = Ok context ->
  exists e' out,
    handle_input env (-1) e = Ok (true, e', out) /\
    requesting_completion e' = requesting_completion e /\
    lines e' = lines e /\ cursor_y e' = cursor_y e /\
    cursor_x e' = cursor_x e /\
    ((exists answer,
        idle_requests env e = true /\
        (get_completion env context (ai_completer e)).1.1 = Some answer /\
        answer <> EmptyString /\
        suggestion_state e = Empty /\
        out = [Requested context] /\
        suggestion_state e' = Active answer 0)
     \/
     ((idle_requests env e = false \/
       (get_completion env context (ai_completer e)).1.1 = None \/
       (get_completion env context (ai_completer e)).1.1 = Some EmptyString) /\
      suggestion e' = suggestion e /\
      suggestion_match_pos e' = suggestion_match_pos e)).
Proof.
  intros Hctx. rewrite handle_input_idle, idle_spec.
  destruct (idle_requests env e) eqn:Hreq.
  2:{ exists e, []. split; [reflexivity|]. repeat (split; [reflexivity|]).
      right. tauto. }
  assert (Hidle := Hreq). unfold idle_requests in Hreq.
  destruct (ai_enabled e) eqn:Hai; [|discriminate].
  destruct (truthy (suggestion e)) eqn:Hs; [discriminate|].
  destruct (requesting_completion e) eqn:Hflag; [discriminate|].
  clear Hreq.
  unfold request_ai_completion, is_available. rewrite Hai, Hflag, Hctx.
  destruct (client (ai_completer e)) eqn:Hcl; simpl.
  2:{ exists e, []. res_simpl. split; [reflexivity|].
      split; [exact Hflag|]. repeat (split; [reflexivity|]).
      right. split; [|tauto]. right. left.
      unfold get_completion. now rewrite Hcl. }
  res_simpl.
  destruct (truthy (strip context)) eqn:Hstrip; simpl.
  2:{ exists e, []. split; [reflexivity|].
      split; [exact Hflag|]. repeat (split; [reflexivity|]).
      right. split; [|tauto]. right. left.
      unfold get_completion. now rewrite Hcl, Hstrip. }
  destruct (get_completion env context (ai_completer e))
    as [[completion c] out] eqn:Hget.
  destruct completion as [answer|]; simpl.
  - destruct (truthy answer) eqn:Hanswer.
    + eexists _, out. split; [reflexivity|]. simpl.
      repeat (split; [reflexivity|]).
      left. exists answer. split; [reflexivity|]. split; [reflexivity|].
      split; [now destruct answer|].
      split; [unfold suggestion_state; now rewrite Hs|].
      split.
      * pose proof (get_completion_answer env context (ai_completer e) answer)
          as H. rewrite Hget in H. now apply H.
      * unfold suggestion_state. simpl. now rewrite Hanswer.
    + eexists _, out. split; [reflexivity|]. simpl.
      repeat (split; [reflexivity|]).
      right. split; [|tauto]. right. right.
      now apply truthy_false_iff in Hanswer as ->.
  - eexists _, out. split; [reflexivity|]. simpl.
    repeat (split; [reflexivity|]).
    right. tauto.
Qed.

(** C4. The fetch is synchronous, so a completion result is never stale:
    it is applied inside the very call of [handle_input] that requests it,
    to the buffer and cursor the context was taken from.  On an editor with
    a valid cursor every event returns and leaves the in-flight flag
    [requesting_completion] as it was (no request is pending between two
    events).
    - A key event (anything but the idle check) sends nothing to the
      provider and never brings a suggestion text: it keeps the text or
      drops it.  So no result arrives with or after an edit.
    - An idle check leaves buffer and cursor as they are, and applies a
      result exactly when its three idle tests pass (among them, suggestion
      state [Empty]) and [get_completion] returns a non-empty answer for
      the context of this buffer: the state becomes [Active{answer, 0}] and
      the provider was sent that context.  In every other case the
      suggestion fields stay as they are. *)
Theorem completion_applied_where_requested
    (env : Env) (key : Z) (e : TextEditor) :
  cursor_inv e ->
  exists continue e' out context,
    handle_input env key e = Ok (continue, e', out) /\
    get_context_before_cursor 500 e = Ok context /\
    requesting_completion e' = requesting_completion e /\
    (key <> -1 ->
     (suggestion e' = suggestion e \/ suggestion e' = EmptyString) /\
     Forall (fun ef => forall p, ef <> Requested p) out) /\
    (key = -1 ->
     lines e' = lines e /\ cursor_y e' = cursor_y e /\
     cursor_x e' = cursor_x e /\
     ((exists answer,
         idle_requests env e = true /\
         (get_completion env context (ai_completer e)).1.1 = Some answer /\
         answer <> EmptyString /\
         suggestion_state e = Empty /\
         out = [Requested context] /\
         suggestion_state e' = Active answer 0)
      \/
      ((idle_requests env e = false \/
        (get_completion env context (ai_completer e)).1.1 = None \/
        (get_completion env context (ai_completer e)).1.1 = Some EmptyString) /\
       suggestion e' = suggestion e /\
       suggestion_match_pos e' = suggestion_match_pos e))).
Proof.
  intros Hinv.
  destruct (get_context_total 500 e Hinv) as (context & Hctx).
  destruct (Z.eq_dec key (-1)) as [->|Hkey].
  - destruct (handle_input_idle_result env e context Hctx)
      as (e' & out & Hrun & Hflag & Hl & Hy & Hx & Hs).
    exists true, e', out, context.
    split; [exact Hrun|]. split; [exact Hctx|]. split; [exact Hflag|].
    split; [intros H; now contradiction H|].
    intros _. tauto.
  - destruct (handle_input_key env key e Hinv Hkey)
      as (continue & e' & out & Hrun & Hflag & Hs & Hout).
    exists continue, e', out, context.
    split; [exact Hrun|]. split; [exact Hctx|]. split; [exact Hflag|].
    split; [intros _; tauto|].
    intros H. contradiction.
Qed.

Lemma completion_applied_where_requested_witness :
  cursor_inv (set_last_input_time 1
                (set_cursor_x 5 (set_lines ["Hello"] (new_editor true 200)))) /\
  exists continue e' out,
    handle_input (answering_env 10 " world") (-1)
      (set_last_input_time 1
         (set_cursor_x 5 (set_lines ["Hello"] (new_editor true 200))))
    = Ok (continue, e', out) /\
    lines e' = ["Hello"] /\ cursor_y e' = 0 /\ cursor_x e' = 5 /\
    out = [Requested "Hello"] /\
    suggestion_state e' = Active "world" 0.
Proof.
  assert (H : cursor_inv
                (set_last_input_time 1
                   (set_cursor_x 5 (set_lines ["Hello"] (new_editor true 200))))).
  { split; [unfold len; simpl; lia|].
    exists "Hello". split; [reflexivity | unfold slen; simpl; lia]. }
  split; [exact H|].
  destruct (completion_applied_where_requested
              (answering_env 10 " world") (-1) _ H)
    as (continue & e' & out & context & Hrun & Hctx & _ & _ & Hidle).
  vm_compute in Hctx. injection Hctx as <-.
  destruct (Hidle eq_refl) as (Hl & Hy & Hx & Hs).
  exists continue, e', out. split; [exact Hrun|].
  repeat (split; [assumption|]).
  destruct Hs as [(answer & _ & Hget & _ & _ & Hout & Hact)|([Hno|[Hno|Hno]] & _)];
    try (vm_compute in Hno; discriminate).
  vm_compute in Hget. injection Hget as <-. split; assumption.
Defined.

End Staleness.

(* ===================================================================== *)
(** ** The completion provider's rate limit *)
(* ===================================================================== *)

Section Provider.

(** [get_completion] contacts the provider exactly when a client is
    configured, the text is not blank and the last contact is at least half
    a second old, and then with the text it was given; when it does not, it
    returns nothing and leaves the completer as it was. *)
Theorem get_completion_contact (env : Env) (text : string) (c : AICompleter) :
  let sends :=
    client c && truthy (strip text)
    && negb (Qlt_bool (clock env - last_request_time c) min_request_interval) in
  (get_completion env text c).2
  = (if sends then [Requested text] else []) /\
  (sends = true ->
   (get_completion env text c).1.2 = mkCompleter (client c) (clock env)) /\
  (sends = false -> (get_completion env text c).1 = (None, c)).
Proof.
  unfold get_completion.
  destruct (client c), (truthy (strip text)); simpl; try (repeat split; congruence).
  destruct (Qlt_bool _ _); simpl; [repeat split; congruence|].
  destruct (provider env text) as [content|]; [|repeat split; congruence].
  destruct (truthy content); repeat split; congruence.
Qed.

(** X15. After a call that contacted the provider, every call made less than
    half a second later, whatever its text, returns nothing, contacts nobody
    and leaves the completer as it is. *)
Theorem get_completion_rate_limited
    (env env' : Env) (text text' : string) (c : AICompleter) :
  (get_completion env text c).2 <> [] ->
  (clock env' - clock env < 1 # 2)%Q ->
  get_completion env' text' (get_completion env text c).1.2
  = (None, (get_completion env text c).1.2, []).
Proof.
  intros Hsent Hsoon.
  destruct (get_completion_contact env text c) as (Hout & Hc & _).
  cbv zeta in *.
  destruct (client c && truthy (strip text)
            && negb (Qlt_bool (clock env - last_request_time c)
                       min_request_interval)) eqn:Hs;
    [|rewrite Hout in Hsent; contradiction].
  rewrite (Hc eq_refl). unfold get_completion at 1. simpl.
  destruct (negb (client c) || negb (truthy (strip text'))); [reflexivity|].
  assert (Hlt : Qlt_bool (clock env' - clock env) min_request_interval = true)
    by (apply Qlt_bool_iff; exact Hsoon).
  now rewrite Hlt.
Qed.

Lemma get_completion_rate_limited_witness :
  get_completion (answering_env (13 # 10) "y") "def"
    (get_completion (answering_env 1 "x") "abc" (mkCompleter true 0)).1.2
  = (None, (get_completion (answering_env 1 "x") "abc" (mkCompleter true 0)).1.2,
     []).
Proof.
  apply (get_completion_rate_limited (answering_env 1 "x")
           (answering_env (13 # 10) "y") "abc" "def" (mkCompleter true 0)).
  - discriminate.
  - reflexivity.
Defined.

End Provider.

(* ===================================================================== *)
(** ** Loading and saving *)
(* ===================================================================== *)

Section LoadAndSave.

Lemma join_cons_cons (sep s t : string) (rest : list string) :
  join sep (s :: t :: rest) = s +:+ sep +:+ join sep (t :: rest).
Proof. reflexivity. Qed.

Lemma join_split (s : string) : join NLs (split NL s) = s.
Proof.
  induction s as [|a s IH]; [reflexivity|].
  simpl. destruct (Ascii.eqb_spec a NL) as [->|Hne].
  - destruct (split NL s) as [|w ws] eqn:E; [now apply split_nonempty in E|].
    rewrite join_cons_cons, IH. reflexivity.
  - destruct (split NL s) as [|w ws] eqn:E; [now apply split_nonempty in E|].
    destruct ws as [|w' ws].
    + simpl in *. now rewrite IH.
    + rewrite join_cons_cons. rewrite join_cons_cons in IH.
      change (String a (w +:+ NLs +:+ join NLs (w' :: ws)) = String a s).
      now rewrite IH.
Qed.

(** X16. Saving what was loaded writes back the text that was read: for every
    content, serializing the lines it loads as gives the content again. *)
Theorem serialize_load_content (content : string) :
  serialize (load_content content) = content.
Proof.
  unfold serialize, load_content. destruct content as [|a s]; [reflexivity|].
  simpl truthy. cbv iota. apply join_split.
Qed.

(** X17. Opening a readable file and saving at once, without a name, writes the
    text that was read back to the same file, and the buffer counts as
    unmodified before and after. *)
Theorem load_then_save (env env' : Env) (path content : string) (e : TextEditor) :
  truthy path = true ->
  read_result env path = Done content ->
  write_result env' path content = Done tt ->
  modified (load_file env path e) = false /\
  filename (load_file env path e) = Some path /\
  (save_file env' None (load_file env path e)).2 = [Wrote path content] /\
  modified (save_file env' None (load_file env path e)).1 = false.
Proof.
  intros Ht Hr Hw. unfold load_file. rewrite Hr.
  unfold save_file. simpl. rewrite Ht, serialize_load_content, Hw. simpl.
  repeat split.
Qed.

Lemma load_then_save_witness :
  (save_file (mkEnv 2 (fun _ => IOError "denied") (fun _ _ => Done tt)
                (fun _ => None)) None
     (load_file (mkEnv 1 (fun _ => Done "one
two") (fun _ _ => IOError "denied") (fun _ => None))
        "notes.txt" (new_editor true 200))).2
  = [Wrote "notes.txt" "one
two"].
Proof.
  apply (load_then_save
           (mkEnv 1 (fun _ => Done "one
two") (fun _ _ => IOError "denied") (fun _ => None))
           (mkEnv 2 (fun _ => IOError "denied") (fun _ _ => Done tt)
              (fun _ => None))
           "notes.txt" "one
two" (new_editor true 200)); reflexivity.
Defined.

End LoadAndSave.

(* ===================================================================== *)
(** ** The context sent to the provider *)
(* ===================================================================== *)

Section Context.

Lemma py_range_empty (a b : Z) : b <= a -> py_range a b = [].
Proof.
  intros H. unfold py_range. now replace (Z.to_nat (b - a)) with 0%nat by lia.
Qed.

Lemma py_range_cons (a b : Z) : a < b -> py_range a b = a :: py_range (a + 1) b.
Proof.
  intros H. unfold py_range.
  replace (Z.to_nat (b - a)) with (S (Z.to_nat (b - (a + 1)))) by lia.
  simpl. f_equal; [lia|].
  rewrite <- seq_shift, map_map. apply map_ext. intros k. lia.
Qed.

Lemma mapM_getitem_range {A : Type} (l : list A) (n : nat) :
  forall a : Z,
    0 <= a -> a + Z.of_nat n <= len l ->
    mapM (getitem l) (py_range a (a + Z.of_nat n))
    = Ok (take n (drop (Z.to_nat a) l)).
Proof.
  induction n as [|n IH]; intros a Ha Hb.
  - rewrite py_range_empty by lia. reflexivity.
  - rewrite py_range_cons by lia.
    destruct (lookup_lt_is_Some_2 l (Z.to_nat a)) as (x & Hx);
      [unfold len in Hb; lia|].
    simpl. rewrite getitem_in_range with (x := x) by (lia || exact Hx).
    replace (a + Z.of_nat (S n)) with ((a + 1) + Z.of_nat n) by lia.
    rewrite IH by lia. res_simpl.
    rewrite (drop_S l x (Z.to_nat a)) by exact Hx. simpl.
    now replace (Z.to_nat (a + 1)) with (S (Z.to_nat a)) by lia.
Qed.

(** X19. The context is made of the text before the cursor only: with the
    buffer split as the lines above the cursor row, the current line cut at
    the cursor, and the lines below, it is the last ten lines above and the
    part of the current line before the cursor, joined by newlines, cut
    down to its last [max_chars] characters when it is longer.  Nothing at
    or behind the cursor, and no line below, enters it. *)
Theorem context_is_text_before_cursor
    (max_chars : Z) (e : TextEditor) (above below : list string)
    (before after : string) :
  lines e = above ++ (before +:+ after) :: below ->
  cursor_y e = len above ->
  cursor_x e = slen before ->
  get_context_before_cursor max_chars e
  = Ok (let context :=
          join NLs (drop (length above - 10) above ++ [before]) in
        if max_chars <? slen context then slice_from context (- max_chars)
        else context).
Proof.
  intros Hl Hy Hx. unfold get_context_before_cursor.
  assert (Hlook : lines e !! Z.to_nat (cursor_y e) = Some (before +:+ after)).
  { rewrite Hl, Hy. unfold len. rewrite Nat2Z.id.
    rewrite lookup_app_r by lia. now rewrite Nat.sub_diag. }
  rewrite (get_current_line_at e (before +:+ after))
    by (exact Hlook || (rewrite Hy; unfold len; lia)).
  set (a := Z.max 0 (cursor_y e - 10)).
  replace (cursor_y e) with (a + Z.of_nat (Z.to_nat (cursor_y e - a))) at 1
    by (subst a; rewrite Hy; unfold len; lia).
  rewrite mapM_getitem_range
    by (subst a; rewrite ?Hy, ?Hl; unfold len; rewrite ?length_app; simpl; lia).
  res_simpl. rewrite Hx, slice_to_append.
  replace (take (Z.to_nat (cursor_y e - a)) (drop (Z.to_nat a) (lines e)))
    with (drop (length above - 10) above);
    [now destruct (max_chars <? _)|].
  rewrite Hl.
  replace (Z.to_nat a) with (length above - 10)%nat
    by (subst a; rewrite Hy; unfold len; lia).
  replace (Z.to_nat (cursor_y e - a)) with (length (drop (length above - 10) above))
    by (subst a; rewrite Hy, length_drop; unfold len; lia).
  rewrite drop_app_le by lia.
  now rewrite take_app_length.
Qed.

Lemma context_is_text_before_cursor_witness :
  get_context_before_cursor 8
    (set_cursor_y 1 (set_cursor_x 3
       (set_lines ["first"; "second"; "third"] (new_editor true 200))))
  = Ok (let context := join NLs (drop (length ["first"] - 10) ["first"] ++ ["sec"]) in
        if 8 <? slen context then slice_from context (- 8) else context).
Proof.
  apply (context_is_text_before_cursor 8
           (set_cursor_y 1 (set_cursor_x 3
              (set_lines ["first"; "second"; "third"] (new_editor true 200))))
           ["first"] ["third"] "sec" "ond"); reflexivity.
Defined.

(** X20. The size of the context: for a positive [max_chars] the context has at
    most [max_chars] characters.  With [max_chars = 0] nothing is cut: the
    slice [context[-0:]] is the whole text. *)
Theorem context_length_bound (max_chars : Z) (e : TextEditor) :
  cursor_inv e ->
  exists context full,
    get_context_before_cursor max_chars e = Ok context /\
    get_context_before_cursor 0 e = Ok full /\
    (exists cut, full = cut +:+ context) /\
    (0 < max_chars -> slen context <= max_chars) /\
    (slen full <= max_chars -> context = full).
Proof.
  intros Hinv.
  destruct (line_at_cursor e Hinv) as (before & after & Hl & _ & Hb & _).
  destruct Hinv as [Hy _].
  destruct (lines_around_cursor e _ (proj1 Hy) Hl) as (above & below & Hsplit & Hlen).
  assert (Hy' : cursor_y e = len above) by (unfold len; lia).
  rewrite !(context_is_text_before_cursor _ e above below before after)
    by (assumption || now symmetry).
  cbv zeta.
  set (full := join NLs (drop (length above - 10) above ++ [before])).
  exists (if max_chars <? slen full then slice_from full (- max_chars) else full),
         full.
  split; [reflexivity|]. split.
  { destruct (Z.ltb_spec 0 (slen full)); [|reflexivity].
    change (- 0) with 0. unfold slice_from.
    now rewrite adjust_in_range by lia. }
  destruct (Z.ltb_spec max_chars (slen full)) as [Hlong|Hshort].
  - split; [|split].
    + exists (slice_to full (- max_chars)). symmetry. apply slice_to_from.
    + intros Hpos. unfold slice_from, slen in *. rewrite length_str_drop.
      unfold adjust. destruct (Z.ltb_spec (- max_chars) 0); lia.
    + lia.
  - split; [|split]; auto. exists EmptyString. reflexivity.
Qed.

Lemma context_length_bound_witness :
  exists context full,
    get_context_before_cursor 4
      (set_cursor_x 6 (set_lines ["abcdefgh"] (new_editor true 200)))
    = Ok context /\
    get_context_before_cursor 0
      (set_cursor_x 6 (set_lines ["abcdefgh"] (new_editor true 200)))
    = Ok full /\
    (exists cut, full = cut +:+ context) /\
    (0 < 4 -> slen context <= 4) /\
    (slen full <= 4 -> context = full).
Proof.
  apply (context_length_bound 4
           (set_cursor_x 6 (set_lines ["abcdefgh"] (new_editor true 200)))).
  split; [unfold len; simpl; lia|].
  exists "abcdefgh". split; [reflexivity | unfold slen; simpl; lia].
Defined.

End Context.

(* ===================================================================== *)
(** ** Drawing *)
(* ===================================================================== *)

Section Drawing.

(** X21. After the scroll update of [draw] the cursor row lies inside the text
    window (for a window of at least one row); when it already does, the
    offset is left alone; and the offset never becomes negative. *)
Theorem scroll_shows_cursor (d : Display) (e : TextEditor) :
  0 < text_height d ->
  offset_y (scroll d e) <= cursor_y e < offset_y (scroll d e) + text_height d /\
  text_height (scroll d e) = text_height d /\
  width (scroll d e) = width d /\
  (offset_y d <= cursor_y e < offset_y d + text_height d -> scroll d e = d) /\
  (0 <= offset_y d -> 0 <= cursor_y e -> 0 <= offset_y (scroll d e)).
Proof.
  intros Hh. unfold scroll.
  destruct (Z.ltb_spec (cursor_y e) (offset_y d)); simpl.
  - repeat split; lia.
  - destruct (Z.leb_spec (offset_y d + text_height d) (cursor_y e)); simpl;
      repeat split; lia.
Qed.

Lemma scroll_shows_cursor_witness :
  offset_y (scroll (mkDisplay 0 24 80 21)
              (set_cursor_y 30 (new_editor true 200))) <= 30
  < offset_y (scroll (mkDisplay 0 24 80 21)
                (set_cursor_y 30 (new_editor true 200))) + 21.
Proof.
  apply (scroll_shows_cursor (mkDisplay 0 24 80 21)
           (set_cursor_y 30 (new_editor true 200))).
  simpl. lia.
Defined.

Lemma mapM_Forall {A B : Type} (f : A -> res B) (P : B -> Prop) (l : list A) :
  Forall (fun a => exists b, f a = Ok b /\ P b) l ->
  exists bs, mapM f l = Ok bs /\ Forall P bs.
Proof.
  induction 1 as [|a l (b & Hb & HP) _ (bs & IH & HPs)]; simpl.
  - exists []. split; [reflexivity | constructor].
  - rewrite Hb, IH. res_simpl. exists (b :: bs). split; [reflexivity|].
    now constructor.
Qed.

Lemma draw_row_within (d : Display) (e : TextEditor) (i : Z) :
  cursor_inv e -> 0 <= offset_y d -> 1 <= width d -> 0 <= i < text_height d ->
  exists calls,
    draw_row d e i = Ok calls /\
    Forall (fun c => 0 <= call_row c < text_height d /\
                     call_end c <= width d - 1) calls.
Proof.
  intros Hinv Hoff Hw Hi. unfold draw_row. cbv zeta.
  destruct (Z.ltb_spec (i + offset_y d) (len (lines e))) as [Hlt|Hge].
  2:{ exists []. split; [reflexivity | constructor]. }
  destruct (lookup_lt_is_Some_2 (lines e) (Z.to_nat (i + offset_y d)))
    as (line & Hline); [unfold len in Hlt; lia|].
  rewrite getitem_in_range with (x := line) by (lia || exact Hline).
  res_simpl.
  assert (Hmain : let main :=
            if slen line <=? width d - 1 then Addstr i 0 line false
            else Addstr i 0 (slice_to line (width d - 1)) false in
          0 <= call_row main < text_height d /\ call_end main <= width d - 1).
  { destruct (Z.leb_spec (slen line) (width d - 1)); simpl.
    - lia.
    - rewrite slen_slice_to by lia. lia. }
  cbv zeta in Hmain.
  destruct ((i + offset_y d =? cursor_y e) && truthy (suggestion e)).
  2:{ eexists. split; [reflexivity|]. repeat constructor; apply Hmain. }
  destruct (Z.ltb_spec (cursor_x e) (width d - 1)) as [Hx|Hx].
  2:{ eexists. split; [reflexivity|]. repeat constructor; apply Hmain. }
  set (remaining := slice_from (suggestion e) (Z.of_nat (suggestion_match_pos e))).
  destruct (Z.ltb_spec 0 (Z.min (slen remaining) (width d - 1 - cursor_x e)))
    as [Hpos|Hnone].
  2:{ eexists. split; [reflexivity|]. repeat constructor; apply Hmain. }
  eexists. split; [reflexivity|].
  constructor; [exact Hmain|]. constructor; [|constructor].
  simpl. rewrite slen_slice_to by lia.
  destruct Hinv as [_ (l0 & _ & Hcx)]. lia.
Qed.

(** X22. What [draw] puts on the text area stays on it: from an editor with a
    valid cursor, a non-negative scroll offset and a screen at least one
    column wide, every [addstr] call of the text loop, the ghost text
    included, is on a row of the text window and ends at column
    [width - 1] at the latest. *)
Theorem draw_text_within_screen (d : Display) (e : TextEditor) :
  cursor_inv e -> 0 <= offset_y d -> 1 <= width d ->
  exists calls,
    draw_text d e = Ok (scroll d e, calls) /\
    Forall (fun c => 0 <= call_row c < text_height d /\
                     call_end c <= width d - 1) calls.
Proof.
  intros Hinv Hoff Hw. unfold draw_text. cbv zeta.
  assert (Hs : text_height (scroll d e) = text_height d /\
               width (scroll d e) = width d /\
               0 <= offset_y (scroll d e)).
  { unfold scroll. destruct Hinv as [Hy _].
    destruct (Z.ltb_spec (cursor_y e) (offset_y d)); simpl; [lia|].
    destruct (Z.leb_spec (offset_y d + text_height d) (cursor_y e)); simpl; lia. }
  destruct Hs as (Hth & Hwd & Hoff').
  destruct (mapM_Forall (draw_row (scroll d e) e)
              (Forall (fun c => 0 <= call_row c < text_height d /\
                                call_end c <= width d - 1))
              (py_range 0 (text_height (scroll d e))))
    as (rows & -> & Hrows).
  { eapply Forall_impl; [apply py_range_bounds|]. simpl. intros i Hi.
    destruct (draw_row_within (scroll d e) e i Hinv Hoff') as (calls & Hc & Hall);
      [lia | exact Hi|].
    exists calls. split; [exact Hc|]. now rewrite Hth, Hwd in Hall. }
  res_simpl. exists (concat rows). split; [reflexivity|].
  now apply Forall_concat.
Qed.

Lemma draw_text_within_screen_witness :
  exists calls,
    draw_text (mkDisplay 0 24 10 21)
      (set_suggestion " and more text"
         (set_cursor_x 5 (set_lines ["hello"; "a much longer line"]
                            (new_editor true 200))))
    = Ok (scroll (mkDisplay 0 24 10 21)
            (set_suggestion " and more text"
               (set_cursor_x 5 (set_lines ["hello"; "a much longer line"]
                                  (new_editor true 200)))), calls) /\
    Forall (fun c => 0 <= call_row c < 21 /\ call_end c <= 10 - 1) calls.
Proof.
  apply (draw_text_within_screen (mkDisplay 0 24 10 21)
           (set_suggestion " and more text"
              (set_cursor_x 5 (set_lines ["hello"; "a much longer line"]
                                 (new_editor true 200))))).
  - split; [unfold len; simpl; lia|].
    exists "hello". split; [reflexivity | unfold slen; simpl; lia].
  - simpl. lia.
  - simpl. lia.
Defined.

End Drawing.

(* ===================================================================== *)
(** ** Configuration *)
(* ===================================================================== *)

Section Configuration.

(** X25. [set] then [get]: the key reads back the value set, whatever default is
    asked for; every other key reads as before; and the whole dictionary
    is what is written to the configuration file. *)
Theorem config_set_get (cenv : ConfigEnv) (c : Config) (key : string) (v : json) :
  (forall default, Config_get (Config_set cenv key v c).1 key default = v) /\
  (forall key' default,
     key' <> key ->
     Config_get (Config_set cenv key v c).1 key' default
     = Config_get c key' default) /\
  config_path (Config_set cenv key v c).1 = config_path c /\
  (Config_set cenv key v c).2
  = (if dump_ok cenv (config_path c)
     then [Dumped (config_path c) (<[key := v]> (config c))] else []).
Proof.
  unfold Config_set, Config_get, _save_config. simpl. repeat split.
  - intros default. now rewrite lookup_insert_eq.
  - intros key' default Hne. now rewrite lookup_insert_ne by congruence.
Qed.

End Configuration.
